(** * 90-day long-form engagement sync: a shallow embedding of [90d-Engagment.py]

    The script reads subject records from a paginated record store, asks a
    video platform for the recent uploads of each record's channel, averages
    the view/like/comment counts of the long-form ones and writes the three
    averages back.

    The embedding follows the script function by function.  Python values
    that come out of [resp.json()] are kept as dynamically typed JSON trees,
    with the behaviour of subscripting, [.get], truth tests and iteration
    written out (which exception is raised on which shape); JSON numbers
    are integers, as in every field the script reads.  The network is a
    function from the index of the call and the request to a response; the
    module-level [error_count] and the log of requests form the state that
    is threaded through every function.  The two [while True] loops take
    fuel.  The imported parsers ([dateutil], [isodate], the builtin [int] on
    strings) are parameters. *)

From Stdlib Require Import ZArith List String Ascii Bool Lia.
Import ListNotations.
Local Open Scope string_scope.
Local Open Scope list_scope.
Local Open Scope Z_scope.

(** ** Python values and exceptions *)

#[local] Set Warnings "-register-all".

Inductive JSON : Type :=
| JNull
| JBool (b : bool)
| JInt (n : Z)
| JStr (s : string)
| JArr (l : list JSON)
| JObj (kvs : list (string * JSON)).

(** The exception classes the script can meet.  [RequestException] stands
    for the whole [requests.RequestException] family (connection errors,
    [HTTPError] from [raise_for_status], an undecodable body). *)
Inductive exn : Type :=
| RequestException
| KeyError
| TypeError
| AttributeError
| ValueError
| OverflowError
| IndexError
| ZeroDivisionError.

Definition exn_eqb (a b : exn) : bool :=
  match a, b with
  | RequestException, RequestException
  | KeyError, KeyError
  | TypeError, TypeError
  | AttributeError, AttributeError
  | ValueError, ValueError
  | OverflowError, OverflowError
  | IndexError, IndexError
  | ZeroDivisionError, ZeroDivisionError => true
  | _, _ => false
  end.

(** Pure Python expressions: a value or a raised exception. *)
Inductive result (A : Type) : Type :=
| Ok (a : A)
| Raise (e : exn).
Arguments Ok {A} a.
Arguments Raise {A} e.

Definition rbind {A B} (r : result A) (k : A -> result B) : result B :=
  match r with
  | Ok a => k a
  | Raise e => Raise e
  end.

(** [try: body except e0: handler] for pure code. *)
Definition rcatch {A} (e0 : exn) (body : result A) (handler : result A)
  : result A :=
  match body with
  | Ok a => Ok a
  | Raise e => if exn_eqb e e0 then handler else Raise e
  end.

Declare Scope result_scope.
Delimit Scope result_scope with result.
Notation "'let?' x ':=' c1 'in' c2" := (rbind c1 (fun x => c2))
  (at level 61, x pattern, c1 at next level, right associativity)
  : result_scope.

(** A dict is kept as its entries in insertion order; keys are distinct in
    a parsed JSON object, so the first match is the entry. *)
Fixpoint assoc (k : string) (kvs : list (string * JSON)) : option JSON :=
  match kvs with
  | [] => None
  | (k', v) :: rest => if String.eqb k k' then Some v else assoc k rest
  end.

(** [x[k]] with a string key. *)
Definition py_getitem (x : JSON) (k : string) : result JSON :=
  match x with
  | JObj kvs => match assoc k kvs with
                | Some v => Ok v
                | None => Raise KeyError
                end
  | _ => Raise TypeError
  end.

(** [x.get(k, default)]. *)
Definition py_get (x : JSON) (k : string) (default : JSON) : result JSON :=
  match x with
  | JObj kvs => match assoc k kvs with
                | Some v => Ok v
                | None => Ok default
                end
  | _ => Raise AttributeError
  end.

(** Truth value of a value, as tested by [if x] and [not x]. *)
Definition truthy (x : JSON) : bool :=
  match x with
  | JNull => false
  | JBool b => b
  | JInt n => negb (n =? 0)
  | JStr s => negb (String.eqb s "")
  | JArr l => match l with [] => false | _ => true end
  | JObj kvs => match kvs with [] => false | _ => true end
  end.

Definition chars (s : string) : list JSON :=
  map (fun c => JStr (String c EmptyString)) (list_ascii_of_string s).

(** The elements [for item in x] visits (also what [list.extend(x)]
    appends): the elements of a list, the keys of a dict, the characters of
    a string; anything else is not iterable. *)
Definition py_iter (x : JSON) : result (list JSON) :=
  match x with
  | JArr l => Ok l
  | JObj kvs => Ok (map (fun kv => JStr (fst kv)) kvs)
  | JStr s => Ok (chars s)
  | _ => Raise TypeError
  end.

(** [x[0]], used once, on a value already known to be truthy. *)
Definition py_first (x : JSON) : result JSON :=
  match x with
  | JArr (v :: _) => Ok v
  | JArr [] => Raise IndexError
  | JStr (String c _) => Ok (JStr (String c EmptyString))
  | JStr EmptyString => Raise IndexError
  | JObj _ => Raise KeyError
  | _ => Raise TypeError
  end.

(** ** Binary64 arithmetic

    The script divides two ints with [/], which yields a float, and
    truncates the float with [int]; [timedelta.total_seconds()] is such a
    division too.  CPython rounds the exact quotient of two ints to the
    nearest double, ties to even, and raises [OverflowError] when the
    rounded value does not fit.  A finite double is kept here as the dyadic
    rational [mant * 2^expo], so that the rounding is computed in [Z]. *)

Record float : Type := mkfloat { mant : Z; expo : Z }.

(** [scaled_le b d n]: [b * 2^d <= n], for an exponent [d] of either sign. *)
Definition scaled_le (b d n : Z) : bool :=
  if 0 <=? d then b * 2 ^ d <=? n else b <=? n * 2 ^ (- d).

(** [floor (log2 (n / b))] for positive [n] and [b]. *)
Definition flog2_ratio (n b : Z) : Z :=
  let d := Z.log2 n - Z.log2 b in
  if scaled_le b d n then d else d - 1.

(** The exponent of the unit in the last place of [n / b]: 53 significant
    bits, and no finer than the subnormal step [2^-1074]. *)
Definition ulp_exponent (n b : Z) : Z :=
  Z.max (flog2_ratio n b - 52) (- 1074).

(** [n / b] expressed in units of [2^e], as a fraction. *)
Definition in_units (n b e : Z) : Z * Z :=
  if 0 <=? e then (n, b * 2 ^ e) else (n * 2 ^ (- e), b).

(** Nearest integer to [num / den], ties to even. *)
Definition round_half_even (num den : Z) : Z :=
  let m0 := num / den in
  let r := num mod den in
  if (den <? 2 * r) || ((2 * r =? den) && Z.odd m0) then m0 + 1 else m0.

(** [a / b] on two ints. *)
Definition true_divide (a b : Z) : result float :=
  if b =? 0 then Raise ZeroDivisionError
  else if a =? 0 then Ok (mkfloat 0 0)
  else
    let n := Z.abs a in
    let d := Z.abs b in
    let e := ulp_exponent n d in
    let (num, den) := in_units n d e in
    let m := round_half_even num den in
    if (0 <=? e) && (2 ^ 1024 <=? m * 2 ^ e) then Raise OverflowError
    else Ok (mkfloat (Z.sgn a * Z.sgn b * m) e).

(** [int(x)] on a finite float: truncation toward zero. *)
Definition float_trunc (x : float) : Z :=
  if 0 <=? expo x then mant x * 2 ^ expo x
  else Z.quot (mant x) (2 ^ (- expo x)).

(** [x >= k] for a float [x] and an int [k]; CPython compares the two
    exactly. *)
Definition float_ge_int (x : float) (k : Z) : bool :=
  if 0 <=? expo x then k <=? mant x * 2 ^ expo x
  else k * 2 ^ (- expo x) <=? mant x.

(** ** What the script takes from outside *)

(** A [datetime]: the instant in microseconds, and whether it carries a
    time zone.  For an aware value the instant is the UTC one, which is what
    comparisons use. *)
Inductive datetime : Type :=
| NaiveDT (us : Z)
| AwareDT (us : Z).

(** [timedelta.min] and [timedelta.max], in microseconds. *)
Definition TD_MIN : Z := - 999999999 * 86400 * 1000000.
Definition TD_MAX : Z := (999999999 * 86400 + 86399) * 1000000 + 999999.

(** A [timedelta] is a bounded number of microseconds. *)
Record timedelta : Type := mk_timedelta {
  td_us : Z;
  td_range : ((TD_MIN <=? td_us) && (td_us <=? TD_MAX)) = true
}.

(** A library parser gives a value or raises one of [TypeError] (the
    argument is not a string), [ValueError] (it does not parse; the
    libraries' own [ParserError] and [ISO8601Error] are subclasses) and
    [OverflowError]. *)
Inductive lib_error : Type :=
| LibTypeError
| LibValueError
| LibOverflowError.

Inductive parsed (A : Type) : Type :=
| Parsed (a : A)
| Rejected (e : lib_error).
Arguments Parsed {A} a.
Arguments Rejected {A} e.

Definition exn_of_lib (e : lib_error) : exn :=
  match e with
  | LibTypeError => TypeError
  | LibValueError => ValueError
  | LibOverflowError => OverflowError
  end.

Definition of_parsed {A} (p : parsed A) : result A :=
  match p with
  | Parsed a => Ok a
  | Rejected e => Raise (exn_of_lib e)
  end.

(** The libraries the script imports and the process environment.
    [parser_parse] is [dateutil.parser.parse]; [parse_duration] is
    [isodate.parse_duration], giving the timedelta that [total_seconds()]
    reads; [int_of_str] is the builtin [int] on a [str], with [None] where
    it raises [ValueError].  [CUTOFF_DATE] is the aware UTC instant
    computed once at import. *)
Record Env : Type := {
  AIRTABLE_API_KEY : option string;
  AIRTABLE_BASE_ID : option string;
  YOUTUBE_API_KEY : option string;
  CUTOFF_DATE : Z;
  parser_parse : JSON -> parsed datetime;
  parse_duration : JSON -> parsed timedelta;
  int_of_str : string -> option Z
}.

(** The three output fields, written together. *)
Record Fields : Type := {
  LGVPV90 : Z;
  LGLPV90 : Z;
  LGCPV90 : Z
}.

(** The HTTP calls of the script, with the parameters that vary. *)
Inductive Request : Type :=
| AirtableList (offset : option JSON)
| Channels (channel_id : JSON)
| PlaylistItems (playlist_id : JSON) (pageToken : option JSON)
| Videos (ids : list string)
| AirtableUpdate (record_id : JSON) (fields : Fields).

(** What a call comes back with: [Failed] when [requests] raises (no
    connection, an error status at [raise_for_status], a body that
    [.json()] cannot decode, whose error is a [RequestException] too), else
    the decoded body. *)
Inductive Response : Type :=
| Failed
| Body (data : JSON).

(** The outside world answers the [i]-th call of the run. *)
Definition World : Type := nat -> Request -> Response.

(** ** State and effects *)

Definition ERROR_LIMIT : Z := 10.

(** The global [error_count] and the calls made so far, oldest first. *)
Record State : Type := {
  error_count : Z;
  calls : list Request
}.

Definition initial_state : State := {| error_count := 0; calls := [] |}.

(** How a call ends: it returns, it raises, or (for the two [while True]
    loops) the fuel ran out with the loop still going.  Each carries the
    state reached. *)
Inductive outcome (A : Type) : Type :=
| Returns (a : A) (s : State)
| Raises (e : exn) (s : State)
| OutOfFuel (s : State).
Arguments Returns {A} a s.
Arguments Raises {A} e s.
Arguments OutOfFuel {A} s.

Definition final_state {A} (o : outcome A) : State :=
  match o with
  | Returns _ s => s
  | Raises _ s => s
  | OutOfFuel s => s
  end.

Definition M (A : Type) : Type := State -> outcome A.

Definition ret {A} (a : A) : M A := fun s => Returns a s.

Definition bind {A B} (m : M A) (k : A -> M B) : M B :=
  fun s => match m s with
           | Returns a s' => k a s'
           | Raises e s' => Raises e s'
           | OutOfFuel s' => OutOfFuel s'
           end.

Definition lift {A} (r : result A) : M A :=
  fun s => match r with
           | Ok a => Returns a s
           | Raise e => Raises e s
           end.

(** [try: body except e0: handler]. *)
Definition catch {A} (e0 : exn) (body : M A) (handler : M A) : M A :=
  fun s => match body s with
           | Raises e s' => if exn_eqb e e0 then handler s' else Raises e s'
           | o => o
           end.

Declare Scope monad_scope.
Delimit Scope monad_scope with monad.
Notation "'let*' x ':=' c1 'in' c2" := (bind c1 (fun x => c2))
  (at level 61, x pattern, c1 at next level, right associativity)
  : monad_scope.
Notation "c1 ';;' c2" := (bind c1 (fun _ => c2))
  (at level 61, right associativity) : monad_scope.

(** The state after one more call. *)
Definition log_call (r : Request) (s : State) : State :=
  {| error_count := error_count s; calls := calls s ++ [r] |}.

(** [error_count += 1] *)
Definition incr_error_count : M unit :=
  fun s => Returns tt {| error_count := error_count s + 1; calls := calls s |}.

Definition get_error_count : M Z := fun s => Returns (error_count s) s.

(** How a loop body ends. *)
Inductive flow (A : Type) : Type :=
| Break (a : A)
| Continue (a : A).
Arguments Break {A} a.
Arguments Continue {A} a.

(** ** The script *)

Section Script.

Variable env : Env.
Variable world : World.

Local Open Scope monad_scope.
Local Open Scope result_scope.

(** One HTTP call with [raise_for_status()] and, for the reads, [.json()]:
    the request is logged, and the world's answer for this position of the
    run either raises or is the decoded body. *)
Definition http (r : Request) : M JSON :=
  fun s =>
    match world (List.length (calls s)) r with
    | Failed => Raises RequestException (log_call r s)
    | Body data => Returns data (log_call r s)
    end.

(** The optional request parameter set by [if token: params[...] = token]. *)
Definition param_if_truthy (token : JSON) : option JSON :=
  if truthy token then Some token else None.

(** *** get_airtable_records *)

(** One turn of the [while True] loop.  Only the request itself can raise
    [RequestException], before [records] is extended, so the handler
    leaves the loop with the records it entered with. *)
Definition get_airtable_records_body (records : list JSON) (offset : JSON)
  : M (flow (list JSON * JSON)) :=
  catch RequestException
    (let* data := http (AirtableList (param_if_truthy offset)) in
     let* page := lift (py_get data "records" (JArr [])) in
     let* more := lift (py_iter page) in
     let records := records ++ more in
     let* offset := lift (py_get data "offset" JNull) in
     if negb (truthy offset) then ret (Break (records, offset))
     else ret (Continue (records, offset)))
    (ret (Break (records, offset))).

Fixpoint get_airtable_records_loop (fuel : nat) (records : list JSON)
  (offset : JSON) : M (list JSON) :=
  match fuel with
  | O => fun s => OutOfFuel s
  | S fuel' =>
      let* f := get_airtable_records_body records offset in
      match f with
      | Break (records, _) => ret records
      | Continue (records, offset) =>
          get_airtable_records_loop fuel' records offset
      end
  end.

Definition get_airtable_records (fuel : nat) : M (list JSON) :=
  get_airtable_records_loop fuel [] JNull.

(** *** get_uploads_playlist_id *)

Definition get_uploads_playlist_id (channel_id : JSON) : M JSON :=
  catch RequestException
    (let* data := http (Channels channel_id) in
     let* items := lift (py_get data "items" (JArr [])) in
     if negb (truthy items) then ret JNull
     else
       let* item := lift (py_first items) in
       let* cd := lift (py_getitem item "contentDetails") in
       let* rp := lift (py_getitem cd "relatedPlaylists") in
       lift (py_getitem rp "uploads"))
    (incr_error_count ;; ret JNull).

(** *** get_recent_video_ids *)

(** [published_at >= CUTOFF_DATE]: the cutoff is aware, so a naive value
    cannot be compared with it. *)
Definition datetime_ge_cutoff (published_at : datetime) : result bool :=
  match published_at with
  | NaiveDT _ => Raise TypeError
  | AwareDT us => Ok (CUTOFF_DATE env <=? us)
  end.

(** The body of [for item in data.get('items', [])], on the pair
    ([video_ids], [recent_videos_found_in_page]). *)
Definition scan_item (item : JSON) (acc : list JSON * bool)
  : result (list JSON * bool) :=
  let (video_ids, found) := acc in
  rcatch KeyError
    (let? cd := py_getitem item "contentDetails" in
     let? ts := py_getitem cd "videoPublishedAt" in
     let? published_at := of_parsed (parser_parse env ts) in
     let? recent := datetime_ge_cutoff published_at in
     if recent then
       let? cd' := py_getitem item "contentDetails" in
       let? video_id := py_getitem cd' "videoId" in
       Ok (video_ids ++ [video_id], true)
     else Ok (video_ids, found))
    (Ok (video_ids, found)).

Fixpoint scan_page (items : list JSON) (acc : list JSON * bool)
  : result (list JSON * bool) :=
  match items with
  | [] => Ok acc
  | item :: rest => let? acc' := scan_item item acc in scan_page rest acc'
  end.

(** One turn of the [while True] loop: the [try] around the request, then
    the scan of the page and the two exits. *)
Definition get_recent_video_ids_body (playlist_id : JSON)
  (video_ids : list JSON) (next_page : JSON)
  : M (flow (list JSON * JSON)) :=
  let* fetched :=
    catch RequestException
      (let* data :=
         http (PlaylistItems playlist_id (param_if_truthy next_page)) in
       ret (Some data))
      (incr_error_count ;; ret None) in
  match fetched with
  | None => ret (Break (video_ids, next_page))
  | Some data =>
      let* page := lift (py_get data "items" (JArr [])) in
      let* items := lift (py_iter page) in
      let* scanned := lift (scan_page items (video_ids, false)) in
      let (video_ids, found) := scanned in
      let* present := lift (py_get data "items" JNull) in
      if negb found && truthy present then ret (Break (video_ids, next_page))
      else
        let* next_page := lift (py_get data "nextPageToken" JNull) in
        if negb (truthy next_page) then ret (Break (video_ids, next_page))
        else ret (Continue (video_ids, next_page))
  end.

Fixpoint get_recent_video_ids_loop (fuel : nat) (playlist_id : JSON)
  (video_ids : list JSON) (next_page : JSON) : M (list JSON) :=
  match fuel with
  | O => fun s => OutOfFuel s
  | S fuel' =>
      let* f := get_recent_video_ids_body playlist_id video_ids next_page in
      match f with
      | Break (video_ids, _) => ret video_ids
      | Continue (video_ids, next_page) =>
          get_recent_video_ids_loop fuel' playlist_id video_ids next_page
      end
  end.

Definition get_recent_video_ids (fuel : nat) (playlist_id : JSON)
  : M (list JSON) :=
  get_recent_video_ids_loop fuel playlist_id [] JNull.

(** *** get_video_stats_batch *)

(** [range(0, n, step)] *)
Definition range_step (n step : nat) : list nat :=
  map (fun k => (k * step)%nat) (seq 0 ((n + step - 1) / step)).

(** [l[i:j]] *)
Definition slice {A} (l : list A) (i j : nat) : list A :=
  firstn (j - i) (skipn i l).

(** The operand of [",".join(batch)]: every element must be a [str]. *)
Fixpoint join_operand (batch : list JSON) : result (list string) :=
  match batch with
  | [] => Ok []
  | JStr s :: rest => let? ss := join_operand rest in Ok (s :: ss)
  | _ :: _ => Raise TypeError
  end.

(** [for i in range(0, len(video_ids), 50)], over the start indices; a
    failed request breaks out with the items of the batches before it. *)
Fixpoint get_video_stats_batch_loop (video_ids : list JSON)
  (starts : list nat) (stats_data : list JSON) : M (list JSON) :=
  match starts with
  | [] => ret stats_data
  | i :: rest =>
      let batch := slice video_ids i (i + 50) in
      let* ids := lift (join_operand batch) in
      let* f :=
        catch RequestException
          (let* data := http (Videos ids) in
           let* page := lift (py_get data "items" (JArr [])) in
           let* more := lift (py_iter page) in
           ret (Continue (stats_data ++ more)))
          (incr_error_count ;; ret (Break stats_data)) in
      match f with
      | Break stats_data => ret stats_data
      | Continue stats_data =>
          get_video_stats_batch_loop video_ids rest stats_data
      end
  end.

Definition get_video_stats_batch (video_ids : list JSON) : M (list JSON) :=
  get_video_stats_batch_loop video_ids
    (range_step (List.length video_ids) 50) [].

(** *** is_longform *)

(** [timedelta.total_seconds()]: the microseconds divided by [10**6]. *)
Definition total_seconds (d : timedelta) : result float :=
  true_divide (td_us d) 1000000.

Definition is_longform (iso_duration : JSON) : result bool :=
  let? duration := of_parsed (parse_duration env iso_duration) in
  let? seconds := total_seconds duration in
  Ok (float_ge_int seconds 180).

(** *** update_airtable_record *)

Definition update_airtable_record (record_id : JSON)
  (fields_to_update : Fields) : M unit :=
  catch RequestException
    (http (AirtableUpdate record_id fields_to_update) ;; ret tt)
    (ret tt).

(** *** main *)

(** [int(x)] on a decoded JSON value. *)
Definition py_int (x : JSON) : result Z :=
  match x with
  | JInt n => Ok n
  | JBool b => Ok (if b then 1 else 0)
  | JStr s => match int_of_str env s with
              | Some n => Ok n
              | None => Raise ValueError
              end
  | _ => Raise TypeError
  end.

(** The body of [for item in video_stats_list], on the three lists
    [longform_views], [longform_likes], [longform_comments]. *)
Definition collect_item (item : JSON) (acc : list Z * list Z * list Z)
  : result (list Z * list Z * list Z) :=
  let '(longform_views, longform_likes, longform_comments) := acc in
  rcatch KeyError
    (let? cd := py_getitem item "contentDetails" in
     let? duration := py_getitem cd "duration" in
     let? long := is_longform duration in
     if long then
       let? st := py_getitem item "statistics" in
       let? v := py_get st "viewCount" (JInt 0) in
       let? views := py_int v in
       let? st := py_getitem item "statistics" in
       let? l := py_get st "likeCount" (JInt 0) in
       let? likes := py_int l in
       let? st := py_getitem item "statistics" in
       let? c := py_get st "commentCount" (JInt 0) in
       let? comments := py_int c in
       Ok (longform_views ++ [views],
           longform_likes ++ [likes],
           longform_comments ++ [comments])
     else Ok acc)
    (Ok acc).

Fixpoint collect_longform (video_stats_list : list JSON)
  (acc : list Z * list Z * list Z) : result (list Z * list Z * list Z) :=
  match video_stats_list with
  | [] => Ok acc
  | item :: rest =>
      let? acc' := collect_item item acc in collect_longform rest acc'
  end.

(** [sum(l)] *)
Definition py_sum (l : list Z) : Z := fold_left Z.add l 0.

(** [int(sum(l) / len(l)) if l else 0] *)
Definition average (l : list Z) : result Z :=
  match l with
  | [] => Ok 0
  | _ :: _ =>
      let? q := true_divide (py_sum l) (Z.of_nat (List.length l)) in
      Ok (float_trunc q)
  end.

Definition zero_fields : Fields :=
  {| LGVPV90 := 0; LGLPV90 := 0; LGCPV90 := 0 |}.

(** Steps 4 to 7 of the loop body, for a record with recent videos; gives
    the fields that were sent. *)
Definition aggregate_and_update (record : JSON) (video_ids : list JSON)
  : M Fields :=
  let* video_stats_list := get_video_stats_batch video_ids in
  let* lists := lift (collect_longform video_stats_list ([], [], [])) in
  let '(longform_views, longform_likes, longform_comments) := lists in
  let* avg_views := lift (average longform_views) in
  let* avg_likes := lift (average longform_likes) in
  let* avg_comments := lift (average longform_comments) in
  let fields_to_update :=
    {| LGVPV90 := avg_views; LGLPV90 := avg_likes;
       LGCPV90 := avg_comments |} in
  let* record_id := lift (py_getitem record "id") in
  update_airtable_record record_id fields_to_update ;;
  ret fields_to_update.

(** The body of [for record in records] after the budget check: [true]
    when the record was counted in [updated_count]. *)
Definition process_record (fuel : nat) (record : JSON) : M bool :=
  let* fields := lift (py_getitem record "fields") in
  let* channel_id := lift (py_get fields "YouTube Channel ID" JNull) in
  if negb (truthy channel_id) then
    lift (py_getitem record "id") ;;
    ret false
  else
    lift (py_getitem record "id") ;;
    let* playlist_id := get_uploads_playlist_id channel_id in
    if negb (truthy playlist_id) then
      let* record_id := lift (py_getitem record "id") in
      update_airtable_record record_id zero_fields ;;
      ret true
    else
      let* video_ids := get_recent_video_ids fuel playlist_id in
      match video_ids with
      | [] =>
          let* record_id := lift (py_getitem record "id") in
          update_airtable_record record_id zero_fields ;;
          ret true
      | _ :: _ =>
          aggregate_and_update record video_ids ;;
          ret true
      end.

(** [for record in records], carrying [updated_count]. *)
Fixpoint main_loop (fuel : nat) (records : list JSON) (updated_count : Z)
  : M Z :=
  match records with
  | [] => ret updated_count
  | record :: rest =>
      let* errors := get_error_count in
      if ERROR_LIMIT <=? errors then ret updated_count
      else
        let* counted := process_record fuel record in
        main_loop fuel rest
          (if counted then updated_count + 1 else updated_count)
  end.

Definition configured (v : option string) : bool :=
  match v with
  | Some s => negb (String.eqb s "")
  | None => false
  end.

(** [main()]: the total it prints at the end, or [None] when it returns
    before the loop. *)
Definition main (fuel : nat) : M (option Z) :=
  if negb (configured (AIRTABLE_API_KEY env)
           && configured (AIRTABLE_BASE_ID env)
           && configured (YOUTUBE_API_KEY env))
  then ret None
  else
    let* records := get_airtable_records fuel in
    match records with
    | [] => ret None
    | _ :: _ =>
        let* updated_count := main_loop fuel records 0 in
        ret (Some updated_count)
    end.

End Script.

(** ** A concrete environment for the examples

    The theorems below hold for every [Env].  The examples need one to run
    on; this one reads the formats the platform sends: decimal counts,
    durations written [PT#H#M#S], and UTC timestamps written
    [YYYY-MM-DDThh:mm:ssZ].  Anything else is rejected with [ValueError]. *)

Module Standin.

Definition digit (c : ascii) : option Z :=
  let n := Z.of_nat (nat_of_ascii c) in
  if (48 <=? n) && (n <=? 57) then Some (n - 48) else None.

(** Reads a run of digits; gives its value, its length and the rest. *)
Fixpoint digits (s : list ascii) (acc : Z) (len : nat)
  : Z * nat * list ascii :=
  match s with
  | c :: rest =>
      match digit c with
      | Some d => digits rest (10 * acc + d) (S len)
      | None => (acc, len, s)
      end
  | [] => (acc, len, s)
  end.

Definition unsigned (s : list ascii) : option Z :=
  match digits s 0 0%nat with
  | (n, S _, []) => Some n
  | _ => None
  end.

Definition decimal_int (s : string) : option Z :=
  match list_ascii_of_string s with
  | "-"%char :: rest => option_map Z.opp (unsigned rest)
  | "+"%char :: rest => unsigned rest
  | l => unsigned l
  end.

(** The time designators in the order ISO 8601 wants them, with their
    length in seconds. *)
Definition designator (c : ascii) : option (nat * Z) :=
  if Ascii.eqb c "H" then Some (1%nat, 3600)
  else if Ascii.eqb c "M" then Some (2%nat, 60)
  else if Ascii.eqb c "S" then Some (3%nat, 1)
  else None.

(** Reads [#H#M#S] components after [PT]: each at most once, in order. *)
Fixpoint time_part (fuel : nat) (s : list ascii) (last : nat) (secs : Z)
  : option Z :=
  match fuel with
  | O => None
  | S fuel' =>
      match s with
      | [] => if Nat.eqb last 0 then None else Some secs
      | _ =>
          match digits s 0 0%nat with
          | (n, S _, c :: rest) =>
              match designator c with
              | Some (rank, unit) =>
                  if Nat.ltb last rank
                  then time_part fuel' rest rank (secs + n * unit)
                  else None
              | None => None
              end
          | _ => None
          end
      end
  end.

Definition timedelta_of_us (us : Z) : parsed timedelta :=
  match (TD_MIN <=? us) && (us <=? TD_MAX) as b
        return ((TD_MIN <=? us) && (us <=? TD_MAX) = b -> parsed timedelta)
  with
  | true => fun H => Parsed (mk_timedelta us H)
  | false => fun _ => Rejected LibOverflowError
  end eq_refl.

Definition pt_duration (x : JSON) : parsed timedelta :=
  match x with
  | JStr s =>
      match list_ascii_of_string s with
      | "P"%char :: "T"%char :: rest =>
          match time_part (S (List.length rest)) rest 0%nat 0 with
          | Some secs => timedelta_of_us (secs * 1000000)
          | None => Rejected LibValueError
          end
      | _ => Rejected LibValueError
      end
  | _ => Rejected LibTypeError
  end.

(** Days from 1970-01-01 to a date of the proleptic Gregorian calendar. *)
Definition days_from_civil (y m d : Z) : Z :=
  let y' := if m <=? 2 then y - 1 else y in
  let era := y' / 400 in
  let yoe := y' - era * 400 in
  let mp := (m + 9) mod 12 in
  let doy := (153 * mp + 2) / 5 + d - 1 in
  let doe := yoe * 365 + yoe / 4 - yoe / 100 + doy in
  era * 146097 + doe - 719468.

Definition days_in_month (y m : Z) : Z :=
  if m =? 2 then
    if ((y mod 4 =? 0) && negb (y mod 100 =? 0)) || (y mod 400 =? 0)
    then 29 else 28
  else if (m =? 4) || (m =? 6) || (m =? 9) || (m =? 11) then 30
  else 31.

(** Reads exactly [k] digits, then the separator [sep]. *)
Definition field (k : nat) (sep : ascii) (s : list ascii)
  : option (Z * list ascii) :=
  match digits (firstn k s) 0 0%nat with
  | (n, len, []) =>
      if Nat.eqb len k then
        match skipn k s with
        | c :: rest => if Ascii.eqb c sep then Some (n, rest) else None
        | [] => None
        end
      else None
  | _ => None
  end.

Definition utc_instant (s : list ascii) : option Z :=
  match field 4 "-" s with
  | Some (y, s) =>
  match field 2 "-" s with
  | Some (m, s) =>
  match field 2 "T" s with
  | Some (d, s) =>
  match field 2 ":" s with
  | Some (hh, s) =>
  match field 2 ":" s with
  | Some (mm, s) =>
  match field 2 "Z" s with
  | Some (ss, []) =>
      if (1 <=? m) && (m <=? 12) && (1 <=? d) && (d <=? days_in_month y m)
         && (1 <=? y) && (hh <=? 23) && (mm <=? 59) && (ss <=? 59)
      then Some ((days_from_civil y m d * 86400
                  + hh * 3600 + mm * 60 + ss) * 1000000)
      else None
  | _ => None end
  | None => None end
  | None => None end
  | None => None end
  | None => None end
  | None => None end.

Definition utc_timestamp (x : JSON) : parsed datetime :=
  match x with
  | JStr s =>
      match utc_instant (list_ascii_of_string s) with
      | Some us => Parsed (AwareDT us)
      | None => Rejected LibValueError
      end
  | _ => Rejected LibTypeError
  end.

(** A run started at 2026-11-04T12:00:00Z: the cutoff is ninety days
    earlier, 2026-08-06T12:00:00Z. *)
Definition env : Env :=
  {| AIRTABLE_API_KEY := Some "key-airtable";
     AIRTABLE_BASE_ID := Some "app-base";
     YOUTUBE_API_KEY := Some "key-youtube";
     CUTOFF_DATE := 1786017600000000;
     parser_parse := utc_timestamp;
     parse_duration := pt_duration;
     int_of_str := decimal_int |}.

End Standin.

(** ** Example worlds *)

Module Example.

Definition record (id : string) (fields : list (string * JSON)) : JSON :=
  JObj [("id", JStr id); ("fields", JObj fields)].

Definition tracked (id channel : string) : JSON :=
  record id [("YouTube Channel ID", JStr channel)].

Definition channel_item (uploads : string) : JSON :=
  JObj [("contentDetails",
         JObj [("relatedPlaylists", JObj [("uploads", JStr uploads)])])].

Definition playlist_item (video_id published : string) : JSON :=
  JObj [("contentDetails",
         JObj [("videoId", JStr video_id);
               ("videoPublishedAt", JStr published)])].

Definition video (duration : string) (statistics : list (string * JSON))
  : JSON :=
  JObj [("contentDetails", JObj [("duration", JStr duration)]);
        ("statistics", JObj statistics)].

Definition counts (views likes comments : string) : list (string * JSON) :=
  [("viewCount", JStr views); ("likeCount", JStr likes);
   ("commentCount", JStr comments)].

Definition page (items : list JSON) (next : option string) : JSON :=
  JObj (("items", JArr items)
        :: match next with
           | Some t => [("nextPageToken", JStr t)]
           | None => []
           end).

(** Five recent uploads, three old ones, ten recent ones. *)
Definition first_page : list JSON :=
  [playlist_item "a1" "2026-11-01T10:00:00Z";
   playlist_item "a2" "2026-10-20T10:00:00Z";
   playlist_item "a3" "2026-10-02T10:00:00Z";
   playlist_item "a4" "2026-09-14T10:00:00Z";
   playlist_item "a5" "2026-08-06T12:00:00Z"].

Definition second_page : list JSON :=
  [playlist_item "b1" "2026-08-06T11:59:59Z";
   playlist_item "b2" "2026-03-01T10:00:00Z";
   playlist_item "b3" "2025-12-24T10:00:00Z"].

Definition third_page : list JSON :=
  map (fun id => playlist_item id "2026-10-10T10:00:00Z")
      ["c1"; "c2"; "c3"; "c4"; "c5"; "c6"; "c7"; "c8"; "c9"; "c10"].

Definition is_token (t : string) (token : option JSON) : bool :=
  match token with
  | Some (JStr s) => String.eqb s t
  | _ => false
  end.

Definition no_token (token : option JSON) : bool :=
  match token with
  | None => true
  | Some _ => false
  end.

Definition is_str (t : string) (x : JSON) : bool :=
  match x with
  | JStr s => String.eqb s t
  | _ => false
  end.

(** A store with three records: a channel with one long and one short
    recent video, a record without channel, and a channel the platform does
    not know.  The platform also knows the channel [UC_quiet], whose uploads
    are all old, and serves the three-page list [UU_pages] and the list
    [UU_gap], whose first page is empty. *)
Definition world : World :=
  fun _ r =>
    match r with
    | AirtableList _ =>
        Body (JObj [("records",
                     JArr [tracked "recA" "UC_alpha";
                           record "recB" [];
                           tracked "recC" "UC_gone"])])
    | Channels c =>
        if is_str "UC_alpha" c then Body (page [channel_item "UU_alpha"] None)
        else if is_str "UC_quiet" c
        then Body (page [channel_item "UU_quiet"] None)
        else Body (JObj [])
    | PlaylistItems p token =>
        if is_str "UU_alpha" p then
          Body (page [playlist_item "v1" "2026-10-01T08:30:00Z";
                      playlist_item "v2" "2026-09-15T19:00:00Z"] None)
        else if is_str "UU_pages" p then
          if no_token token then Body (page first_page (Some "p2"))
          else if is_token "p2" token then Body (page second_page (Some "p3"))
          else Body (page third_page None)
        else if is_str "UU_gap" p then
          if no_token token then Body (page [] (Some "g2"))
          else Body (page [playlist_item "g1" "2026-10-30T10:00:00Z"] None)
        else if is_str "UU_quiet" p then Body (page second_page None)
        else Body (JObj [])
    | Videos _ =>
        Body (page [video "PT5M" (counts "100" "10" "2");
                    video "PT45S" (counts "90000" "800" "70")] None)
    | AirtableUpdate _ _ => Body (JObj [])
    end.

(** The same, with every update of the store refused. *)
Definition read_only_store : World :=
  fun i r =>
    match r with
    | AirtableUpdate _ _ => Failed
    | _ => world i r
    end.


(** The same, with the statistics endpoint down. *)
Definition no_statistics : World :=
  fun i r =>
    match r with
    | Videos _ => Failed
    | _ => world i r
    end.

(** The same, with a channel entry that lacks [contentDetails]. *)
Definition bare_channel : World :=
  fun i r =>
    match r with
    | Channels _ => Body (page [JObj [("id", JStr "UC_alpha")]] None)
    | _ => world i r
    end.

(** Eleven tracked records while the platform is unreachable. *)
Definition eleven : list JSON :=
  map (fun n => tracked ("rec" ++ n) ("UC" ++ n))%string
      ["01"; "02"; "03"; "04"; "05"; "06"; "07"; "08"; "09"; "10"; "11"].

Definition outage : World :=
  fun _ r =>
    match r with
    | AirtableList _ => Body (JObj [("records", JArr eleven)])
    | AirtableUpdate _ _ => Body (JObj [])
    | _ => Failed
    end.

(** A store that hands out its records on two pages. *)
Definition two_pages : World :=
  fun i r =>
    match r with
    | AirtableList None =>
        Body (JObj [("records", JArr [tracked "recA" "UC_alpha"]);
                    ("offset", JStr "o2")])
    | AirtableList (Some _) =>
        Body (JObj [("records", JArr [tracked "recC" "UC_gone"])])
    | _ => world i r
    end.

(** Nine records whose channel lookup fails, then a channel whose second
    list page and whose statistics fail, then one more record. *)
Definition nine_and_two : list JSON :=
  map (fun n => tracked ("rec" ++ n) ("UC" ++ n))%string
      ["01"; "02"; "03"; "04"; "05"; "06"; "07"; "08"; "09"]
  ++ [tracked "recA" "UC_alpha"; tracked "recZ" "UC_alpha"].

Definition last_straw : World :=
  fun _ r =>
    match r with
    | AirtableList _ => Body (JObj [("records", JArr nine_and_two)])
    | Channels c =>
        if is_str "UC_alpha" c then Body (page [channel_item "UU_alpha"] None)
        else Failed
    | PlaylistItems _ token =>
        if no_token token
        then Body (page [playlist_item "v1" "2026-10-01T08:30:00Z"]
                     (Some "p2"))
        else Failed
    | Videos _ => Failed
    | AirtableUpdate _ _ => Body (JObj [])
    end.



End Example.

(** ** Vocabulary of the properties *)






(** An item that has a duration, and a long-form one. *)
Definition long_form_item (env : Env) (item : JSON) : Prop :=
  exists cd duration,
    py_getitem item "contentDetails" = Ok cd
    /\ py_getitem cd "duration" = Ok duration
    /\ is_longform env duration = Ok true.

(** The count read from a statistics object: the converted field, or 0
    when the field is not there. *)
Definition count_field (env : Env) (statistics : list (string * JSON))
  (k : string) : result Z :=
  match assoc k statistics with
  | Some v => py_int env v
  | None => Ok 0
  end.

(** The record got through channel resolution and the recency filter:
    it has a channel, the channel has an uploads list, and the filter
    returned [video_ids], leaving the run in state [s']. *)
Definition recent_videos_of (env : Env) (world : World) (fuel : nat)
  (record : JSON) (s : State) (record_id : JSON) (video_ids : list JSON)
  (s' : State) : Prop :=
  exists fields channel_id playlist_id s1,
    py_getitem record "fields" = Ok fields
    /\ py_get fields "YouTube Channel ID" JNull = Ok channel_id
    /\ truthy channel_id = true
    /\ py_getitem record "id" = Ok record_id
    /\ get_uploads_playlist_id world channel_id s = Returns playlist_id s1
    /\ truthy playlist_id = true
    /\ get_recent_video_ids env world fuel playlist_id s1
       = Returns video_ids s'.

Definition is_update (r : Request) : bool :=
  match r with
  | AirtableUpdate _ _ => true
  | _ => false
  end.

(** The number of update calls among the calls made. *)
Definition updates_issued (s : State) : Z :=
  Z.of_nat (List.length (filter is_update (calls s))).

(** The calls whose failure the budget counts: those to the platform. *)
Definition counted (r : Request) : bool :=
  match r with
  | Channels _ | PlaylistItems _ _ | Videos _ => true
  | AirtableList _ | AirtableUpdate _ _ => false
  end.

Definition failed (r : Response) : bool :=
  match r with
  | Failed => true
  | Body _ => false
  end.

(** The number of failed platform calls in a log that starts at position
    [i] of the run. *)
Fixpoint transport_failures_from (world : World) (i : nat)
  (log : list Request) : Z :=
  match log with
  | [] => 0
  | r :: rest =>
      (if counted r && failed (world i r) then 1 else 0)
      + transport_failures_from world (S i) rest
  end.

Definition transport_failures (world : World) (s : State) : Z :=
  transport_failures_from world 0 (calls s).

(** How far the error counter is above the number of failed platform
    calls. *)
Definition counter_excess (world : World) (s : State) : Z :=
  error_count s - transport_failures world s.

(** How one more call changes a quantity that a failed platform call
    lowers by [b] and an update raises by [u]. *)
Definition call_effect (world : World) (b u : Z) (r : Request) (s : State)
  : Z :=
  match r with
  | AirtableList _ => 0
  | AirtableUpdate _ _ => u
  | _ => if failed (world (List.length (calls s)) r) then - b else 0
  end.

(** A pure expression, and an effectful one, that cannot raise
    [RequestException]. *)
Definition quiet {A} (r : result A) : Prop := r <> Raise RequestException.

Definition contained {A} (m : M A) : Prop :=
  forall s s', m s <> Raises RequestException s'.

(** A run that ended: it returned or raised, the fuel did not run out. *)
Definition finished {A} (o : outcome A) : bool :=
  match o with
  | OutOfFuel _ => false
  | _ => true
  end.

(** The batch of [video_ids] that starts at index [i]. *)
Definition batch_at {A} (l : list A) (i : nat) : list A :=
  slice l i (i + 50).

(** The identifiers asked for by the statistics requests of a log. *)
Definition requested (log : list Request) : list string :=
  flat_map (fun r => match r with Videos ids => ids | _ => [] end) log.

Definition is_batch_request (r : Request) : Prop :=
  exists ids, r = Videos ids /\ (1 <= List.length ids <= 50)%nat.

(** From call [i] on, asked with [offset], the store hands out [records]
    in [n] calls: pages that each name the next offset, up to a page that
    names none or a call that fails. *)
Inductive store_serves (world : World)
  : nat -> JSON -> list JSON -> nat -> Prop :=
| serves_failed (i : nat) (offset : JSON) :
    world i (AirtableList (param_if_truthy offset)) = Failed ->
    store_serves world i offset [] 1
| serves_last (i : nat) (offset data page next : JSON) (more : list JSON) :
    world i (AirtableList (param_if_truthy offset)) = Body data ->
    py_get data "records" (JArr []) = Ok page ->
    py_iter page = Ok more ->
    py_get data "offset" JNull = Ok next ->
    truthy next = false ->
    store_serves world i offset more 1
| serves_more (i : nat) (offset data page next : JSON)
    (more rest : list JSON) (n : nat) :
    world i (AirtableList (param_if_truthy offset)) = Body data ->
    py_get data "records" (JArr []) = Ok page ->
    py_iter page = Ok more ->
    py_get data "offset" JNull = Ok next ->
    truthy next = true ->
    store_serves world (S i) next rest n ->
    store_serves world i offset (more ++ rest) (S n).

Definition is_list_request (r : Request) : Prop :=
  exists offset, r = AirtableList offset.

(** The item carries the identifier [video_id] and a publication time,
    with time zone, at or after the cutoff. *)
Definition published_recently (env : Env) (item video_id : JSON) : Prop :=
  exists cd ts us,
    py_getitem item "contentDetails" = Ok cd
    /\ py_getitem cd "videoPublishedAt" = Ok ts
    /\ parser_parse env ts = Parsed (AwareDT us)
    /\ CUTOFF_DATE env <= us
    /\ py_getitem cd "videoId" = Ok video_id.

(** The world answered some call of the log, from position [lo] on, with a
    page of the list that holds [item]. *)
Definition listed_during (world : World) (playlist_id : JSON) (lo hi : nat)
  (item : JSON) : Prop :=
  exists i token data page items,
    (lo <= i < hi)%nat
    /\ world i (PlaylistItems playlist_id token) = Body data
    /\ py_get data "items" (JArr []) = Ok page
    /\ py_iter page = Ok items
    /\ In item items.

(** The uploads list named by the first channel of an answer. *)
Definition first_channel_uploads (data playlist_id : JSON) : Prop :=
  exists items item cd rp,
    py_get data "items" (JArr []) = Ok items
    /\ truthy items = true
    /\ py_first items = Ok item
    /\ py_getitem item "contentDetails" = Ok cd
    /\ py_getitem cd "relatedPlaylists" = Ok rp
    /\ py_getitem rp "uploads" = Ok playlist_id.

(** [x] lies between [lo] and [hi]. *)
Definition between (lo x hi : Z) : Prop := lo <= x <= hi.

(** * Properties *)

(** Case analysis on an innermost scrutinee of the goal, or of [H]. *)
Ltac case_inner :=
  match goal with
  | |- context [match ?x with _ => _ end] =>
      lazymatch x with
      | context [match _ with _ => _ end] => fail
      | _ => destruct x eqn:?
      end
  end.

Ltac case_inner_in H :=
  match type of H with
  | context [match ?x with _ => _ end] =>
      lazymatch x with
      | context [match _ with _ => _ end] => fail
      | _ => destruct x eqn:?
      end
  end.

(** Unfolds the effect combinators. *)
Ltac run_effects :=
  unfold bind, catch, http, lift, ret, incr_error_count, get_error_count.

(** ** The model at work *)

(** A whole run in the example world: the record with a channel gets the
    figures of its one long-form video, the record without channel is
    passed over, the record with an unknown channel gets zeros. *)
Example run_in_the_example_world :
  main Standin.env Example.world 5 initial_state
  = Returns (Some 2)
      {| error_count := 0;
         calls :=
           [AirtableList None;
            Channels (JStr "UC_alpha");
            PlaylistItems (JStr "UU_alpha") None;
            Videos ["v1"; "v2"];
            AirtableUpdate (JStr "recA")
              {| LGVPV90 := 100; LGLPV90 := 10; LGCPV90 := 2 |};
            Channels (JStr "UC_gone");
            AirtableUpdate (JStr "recC") zero_fields] |}.
Proof. reflexivity. Qed.

(** The stand-in parsers on the formats of the platform. *)
Example standin_parsers :
  Standin.utc_timestamp (JStr "2026-08-06T12:00:00Z")
  = Parsed (AwareDT (CUTOFF_DATE Standin.env))
  /\ Standin.utc_timestamp (JStr "1970-01-01T00:00:00Z") = Parsed (AwareDT 0)
  /\ Standin.utc_timestamp (JStr "2023-02-29T00:00:00Z")
     = Rejected LibValueError
  /\ Standin.decimal_int "90000" = Some 90000
  /\ Standin.decimal_int "9e4" = None.
Proof. repeat split; reflexivity. Qed.

(** Float division as CPython does it: [7 / 2] is [3.5], [1 / 3] is the
    double nearest to a third, and [(2^53 + 1) / 1] is [2^53]. *)
Example true_divide_values :
  true_divide 7 2 = Ok (mkfloat 7881299347898368 (- 51))
  /\ true_divide 1 3 = Ok (mkfloat 6004799503160661 (- 54))
  /\ true_divide 9007199254740993 1 = Ok (mkfloat 4503599627370496 1)
  /\ true_divide (2 ^ 1024) 1 = Raise OverflowError
  /\ true_divide 1 0 = Raise ZeroDivisionError.
Proof. repeat split; reflexivity. Qed.

(** ** What the pure helpers raise *)

Lemma py_get_raises (x : JSON) (k : string) (d : JSON) (e : exn) :
  py_get x k d = Raise e -> e = AttributeError.
Proof.
  destruct x; cbn; intros H; try (inversion H; reflexivity).
  destruct (assoc k kvs); discriminate.
Qed.

Lemma py_getitem_raises (x : JSON) (k : string) (e : exn) :
  py_getitem x k = Raise e -> e = KeyError \/ e = TypeError.
Proof.
  destruct x; cbn; intros H; try (inversion H; now right).
  destruct (assoc k kvs); [discriminate|]. inversion H. now left.
Qed.

Lemma py_iter_raises (x : JSON) (e : exn) :
  py_iter x = Raise e -> e = TypeError.
Proof. destruct x; cbn; intros H; inversion H; reflexivity. Qed.

Lemma py_first_raises (x : JSON) (e : exn) :
  py_first x = Raise e -> e = IndexError \/ e = KeyError \/ e = TypeError.
Proof.
  destruct x as [| b | n | s | l | kvs]; cbn; intros H;
    try (inversion H; now auto).
  - destruct s; inversion H; auto.
  - destruct l; inversion H; auto.
Qed.

Ltac pure_exn :=
  match goal with
  | H : py_get _ _ _ = Raise ?e |- _ =>
      is_var e; apply py_get_raises in H; subst e
  | H : py_iter _ = Raise ?e |- _ =>
      is_var e; apply py_iter_raises in H; subst e
  | H : py_getitem _ _ = Raise ?e |- _ =>
      is_var e; apply py_getitem_raises in H; destruct H; subst e
  | H : py_first _ = Raise ?e |- _ =>
      is_var e; apply py_first_raises in H; destruct H as [|[|]]; subst e
  end.

(** ** Facts about the binary64 division *)

Lemma pow2_split (x y : Z) : 0 <= x -> 0 <= y -> 2 ^ (x + y) = 2 ^ x * 2 ^ y.
Proof. intros. apply Z.pow_add_r; assumption. Qed.

Lemma pow2_pos (x : Z) : 0 <= x -> 0 < 2 ^ x.
Proof. intros. apply Z.pow_pos_nonneg; lia. Qed.

Lemma pow2_le (x y : Z) : 0 <= x <= y -> 2 ^ x <= 2 ^ y.
Proof. intros. apply Z.pow_le_mono_r; lia. Qed.

Lemma scaled_le_nonneg (b d n : Z) :
  0 <= d -> scaled_le b d n = true <-> b * 2 ^ d <= n.
Proof.
  intros Hd. unfold scaled_le.
  destruct (0 <=? d) eqn:E; [apply Z.leb_le | apply Z.leb_gt in E; lia].
Qed.

Lemma scaled_le_neg (b d n : Z) :
  d < 0 -> scaled_le b d n = true <-> b <= n * 2 ^ (- d).
Proof.
  intros Hd. unfold scaled_le.
  destruct (0 <=? d) eqn:E; [apply Z.leb_le in E; lia | apply Z.leb_le].
Qed.

(** [b * 2^d <= n] for either sign of [d], over a common scale. *)
Lemma scaled_le_spec (b d n k : Z) :
  0 <= k -> 0 <= d + k ->
  scaled_le b d n = true <-> b * 2 ^ (d + k) <= n * 2 ^ k.
Proof.
  intros Hk Hdk.
  pose proof (pow2_pos k Hk) as Pk.
  destruct (Z_le_gt_dec 0 d) as [Hd | Hd].
  - rewrite scaled_le_nonneg by assumption.
    rewrite pow2_split by assumption.
    pose proof (pow2_pos d Hd). nia.
  - rewrite scaled_le_neg by lia.
    replace k with ((d + k) + (- d)) at 2 by lia.
    rewrite (pow2_split (d + k) (- d)) by lia.
    pose proof (pow2_pos (- d)). pose proof (pow2_pos (d + k) Hdk). nia.
Qed.

Lemma flog2_ratio_spec (n b k : Z) :
  0 < n -> 0 < b -> 0 <= k -> 0 <= flog2_ratio n b + k ->
  b * 2 ^ (flog2_ratio n b + k) <= n * 2 ^ k
  /\ n * 2 ^ k < b * 2 ^ (flog2_ratio n b + 1 + k).
Proof.
  intros Hn Hb Hk Hf.
  destruct (Z.log2_spec n Hn) as [Ln Un].
  destruct (Z.log2_spec b Hb) as [Lb Ub].
  pose proof (Z.log2_nonneg n) as Nn.
  pose proof (Z.log2_nonneg b) as Nb.
  rewrite <- Z.add_1_r in Un, Ub.
  rewrite pow2_split in Un, Ub by lia. rewrite Z.pow_1_r in Un, Ub.
  pose proof (pow2_pos _ Nn) as Pn. pose proof (pow2_pos _ Nb) as Pb.
  (* both bounds first at the scale [log2 b + 1], where they are plain *)
  assert (At : b * 2 ^ (flog2_ratio n b + (Z.log2 b + 1))
               <= n * 2 ^ (Z.log2 b + 1)
               /\ n * 2 ^ (Z.log2 b + 1)
                  < b * 2 ^ (flog2_ratio n b + 1 + (Z.log2 b + 1))).
  { unfold flog2_ratio.
    destruct (scaled_le b (Z.log2 n - Z.log2 b) n) eqn:E.
    - apply (scaled_le_spec b _ n (Z.log2 b + 1)) in E; [|lia|lia].
      split; [exact E|].
      replace (Z.log2 n - Z.log2 b + 1 + (Z.log2 b + 1))
        with (Z.log2 n + 1 + 1) by lia.
      rewrite !pow2_split by lia. rewrite Z.pow_1_r. nia.
    - assert (E' : ~ b * 2 ^ (Z.log2 n - Z.log2 b + (Z.log2 b + 1))
                     <= n * 2 ^ (Z.log2 b + 1)).
      { intro H. apply (scaled_le_spec b _ n (Z.log2 b + 1)) in H;
          [congruence|lia|lia]. }
      split.
      + replace (Z.log2 n - Z.log2 b - 1 + (Z.log2 b + 1))
          with (Z.log2 n) by lia.
        rewrite pow2_split by lia. rewrite Z.pow_1_r. nia.
      + replace (Z.log2 n - Z.log2 b - 1 + 1 + (Z.log2 b + 1))
          with (Z.log2 n - Z.log2 b + (Z.log2 b + 1)) by lia.
        lia. }
  (* then moved to the scale [k] *)
  set (f := flog2_ratio n b) in *.
  set (lb := Z.log2 b + 1) in *.
  destruct At as [A1 A2].
  assert (Hflb : 0 <= f + lb).
  { unfold f, flog2_ratio, lb.
    destruct (scaled_le b (Z.log2 n - Z.log2 b) n); lia. }
  pose proof (pow2_pos k Hk) as Pk.
  assert (Plb : 0 < 2 ^ lb) by (apply pow2_pos; unfold lb; lia).
  pose proof (pow2_pos _ Hf) as Pfk.
  pose proof (pow2_pos _ Hflb) as Pfl.
  assert (X1 : 2 ^ (f + k) * 2 ^ lb = 2 ^ (f + lb) * 2 ^ k).
  { rewrite <- !pow2_split by lia. f_equal. lia. }
  assert (X2 : 2 ^ (f + 1 + k) * 2 ^ lb = 2 ^ (f + 1 + lb) * 2 ^ k).
  { rewrite <- !pow2_split by lia. f_equal. lia. }
  split.
  - apply (Z.mul_le_mono_pos_r _ _ (2 ^ lb)); [assumption|]. nia.
  - apply (Z.mul_lt_mono_pos_r (2 ^ lb)); [assumption|]. nia.
Qed.

Lemma in_units_spec (n b e k : Z) :
  0 < b -> 0 <= k -> 0 <= e + k ->
  0 < snd (in_units n b e)
  /\ fst (in_units n b e) * (b * 2 ^ (e + k))
     = n * 2 ^ k * snd (in_units n b e).
Proof.
  intros Hb Hk Hek. unfold in_units.
  destruct (0 <=? e) eqn:E; cbn [fst snd].
  - apply Z.leb_le in E. pose proof (pow2_pos e E).
    split; [nia|]. rewrite pow2_split by lia. ring.
  - apply Z.leb_gt in E. split; [lia|].
    replace k with ((- e) + (e + k)) at 2 by lia.
    rewrite (pow2_split (- e)) by lia. ring.
Qed.


(** The quotient in units of its last place has at most 53 bits, and
    exactly 53 unless the exponent was held at the subnormal step. *)
Lemma ulp_exponent_normal (n b : Z) :
  0 < n -> 0 < b ->
  let e := ulp_exponent n b in
  let num := fst (in_units n b e) in
  let den := snd (in_units n b e) in
  0 < den /\ num < 2 ^ 53 * den /\ (2 ^ 52 * den <= num \/ e = - 1074).
Proof.
  intros Hn Hb e num den.
  set (f := flog2_ratio n b) in *.
  set (k := Z.abs f + 1074 + 53).
  assert (Hk : 0 <= k) by lia.
  assert (Hfk : 0 <= f + k) by lia.
  assert (Hek : 0 <= e + k) by (unfold e, ulp_exponent; fold f; lia).
  destruct (flog2_ratio_spec n b k Hn Hb Hk Hfk) as [Lo Up]. fold f in Lo, Up.
  destruct (in_units_spec n b e k Hb Hk Hek) as [Dpos Eq].
  fold num den in Dpos, Eq.
  pose proof (pow2_pos _ Hek) as Pek.
  assert (Hpos : 0 < b * 2 ^ (e + k)) by nia.
  split; [assumption|]. split.
  - assert (Hle : 2 ^ (f + 1 + k) <= 2 ^ (e + k) * 2 ^ 53).
    { rewrite <- pow2_split by lia. apply pow2_le.
      unfold e, ulp_exponent; fold f. lia. }
    apply (Z.mul_lt_mono_pos_r (b * 2 ^ (e + k))); [assumption|].
    rewrite Eq.
    apply Z.lt_le_trans with (b * 2 ^ (f + 1 + k) * den).
    + apply Z.mul_lt_mono_pos_r; assumption.
    + replace (2 ^ 53 * den * (b * 2 ^ (e + k)))
        with (b * (2 ^ (e + k) * 2 ^ 53) * den) by ring.
      apply Z.mul_le_mono_nonneg_r; [lia|].
      apply Z.mul_le_mono_nonneg_l; lia.
  - destruct (Z_le_gt_dec (- 1074) (f - 52)) as [Hc | Hc].
    + left. assert (He : e = f - 52) by (unfold e, ulp_exponent; fold f; lia).
      assert (Hsp : 2 ^ (f + k) = 2 ^ (e + k) * 2 ^ 52).
      { rewrite <- pow2_split by lia. f_equal. lia. }
      apply (Z.mul_le_mono_pos_r _ _ (b * 2 ^ (e + k))); [assumption|].
      rewrite Eq. rewrite Hsp in Lo.
      replace (2 ^ 52 * den * (b * 2 ^ (e + k)))
        with (b * (2 ^ (e + k) * 2 ^ 52) * den) by ring.
      apply Z.mul_le_mono_nonneg_r; [lia|assumption].
    + right. unfold e, ulp_exponent; fold f. lia.
Qed.

(** Rounding to nearest moves to a neighbouring integer, and upward only
    from the upper half. *)
Lemma round_half_even_spec (num den : Z) :
  0 < den ->
  let m := round_half_even num den in
  (m = num / den \/ (m = num / den + 1 /\ den <= 2 * (num mod den))).
Proof.
  intros Hden m. unfold m, round_half_even.
  destruct (den <? 2 * (num mod den)) eqn:E1; cbn [orb].
  - right. apply Z.ltb_lt in E1. lia.
  - destruct (2 * (num mod den) =? den) eqn:E2; cbn [andb].
    + apply Z.eqb_eq in E2. destruct (Z.odd (num / den)); [right|left]; lia.
    + now left.
Qed.




(** Dividing a timedelta's microseconds by [10**6] and comparing with 180
    decides [microseconds >= 180 * 10**6]: a timedelta is far from
    overflowing a double, and a duration below 180 s is at least a
    microsecond below, much more than half a unit in the last place. *)
Lemma true_divide_ge_180 (a b : Z) :
  b = 1000000 -> TD_MIN <= a <= TD_MAX ->
  exists x, true_divide a b = Ok x
            /\ float_ge_int x 180 = (180 * b <=? a).
Proof.
  intros Hbv [Hmin Hmax]. unfold TD_MIN in Hmin. unfold TD_MAX in Hmax.
  assert (Hb : 0 < b) by lia.
  unfold true_divide.
  destruct (b =? 0) eqn:Eb; [apply Z.eqb_eq in Eb; lia|].
  destruct (a =? 0) eqn:Ea.
  { apply Z.eqb_eq in Ea. subst a. eexists. split; [reflexivity|].
    subst b. reflexivity. }
  apply Z.eqb_neq in Ea.
  rewrite (Z.abs_eq b), (Z.sgn_pos b) by lia.
  set (n := Z.abs a) in *.
  assert (Hn : 0 < n) by (unfold n; lia).
  pose proof (ulp_exponent_normal n b Hn Hb) as N. cbv zeta in N.
  set (e := ulp_exponent n b) in *.
  set (f := flog2_ratio n b).
  set (k := Z.abs f + 1).
  destruct (flog2_ratio_spec n b k Hn Hb ltac:(lia) ltac:(lia)) as [Lo _].
  fold f in Lo.
  pose proof (pow2_pos k ltac:(lia)) as Pk.
  pose proof (pow2_pos (f + k) ltac:(lia)) as Pfk.
  assert (Hf67 : f < 67).
  { destruct (Z_lt_le_dec f 67) as [|Hge]; [assumption|exfalso].
    assert (2 ^ (67 + k) <= 2 ^ (f + k)) by (apply pow2_le; lia).
    rewrite pow2_split in H by lia. nia. }
  assert (Hf8 : n < 180 * b -> f < 8).
  { intros Hlt. destruct (Z_lt_le_dec f 8) as [|Hge]; [assumption|exfalso].
    assert (2 ^ (8 + k) <= 2 ^ (f + k)) by (apply pow2_le; lia).
    rewrite pow2_split in H by lia. nia. }
  assert (He : e = Z.max (f - 52) (- 1074)) by reflexivity.
  destruct (in_units n b e) as [num den] eqn:U. cbn [fst snd] in N.
  destruct N as (Dpos & Nup & Nlo).
  pose proof (round_half_even_spec num den Dpos) as R. cbv zeta in R.
  set (m := round_half_even num den) in *.
  assert (Hnum : 0 <= num).
  { unfold in_units in U. destruct (0 <=? e) eqn:E; inversion U; subst.
    - lia.
    - apply Z.leb_gt in E. pose proof (pow2_pos (- e) ltac:(lia)). nia. }
  assert (Hm0 : 0 <= num / den) by (apply Z.div_pos; assumption).
  assert (Hm53 : num / den < 2 ^ 53).
  { apply Z.div_lt_upper_bound; [assumption|]. lia. }
  assert (Hm : 0 <= m <= 2 ^ 53) by lia.
  assert (Hover : (0 <=? e) && (2 ^ 1024 <=? m * 2 ^ e) = false).
  { destruct (0 <=? e) eqn:E; [|reflexivity]. apply Z.leb_le in E.
    cbn [andb]. apply Z.leb_gt.
    assert (2 ^ e <= 2 ^ 14) by (apply pow2_le; lia).
    pose proof (pow2_pos e E).
    assert (2 ^ 53 * 2 ^ 14 < 2 ^ 1024).
    { rewrite <- pow2_split by lia. apply Z.pow_lt_mono_r; lia. }
    nia. }
  rewrite Hover. eexists. split; [reflexivity|].
  unfold float_ge_int. cbn [mant expo]. rewrite Z.mul_1_r.
  destruct (Z.lt_trichotomy a 0) as [Hneg | [H0 | Hpos]]; [|lia|].
  - (* a negative duration is below 180 s, and so is its float *)
    rewrite (Z.sgn_neg a Hneg).
    transitivity false; [|symmetry; apply Z.leb_gt; lia].
    destruct (0 <=? e) eqn:E.
    + apply Z.leb_le in E. pose proof (pow2_pos e E). apply Z.leb_gt. nia.
    + apply Z.leb_gt in E. pose proof (pow2_pos (- e) ltac:(lia)).
      apply Z.leb_gt. nia.
  - rewrite (Z.sgn_pos a Hpos), Z.mul_1_l.
    assert (Hna : n = a) by (unfold n; lia).
    unfold in_units in U.
    destruct (0 <=? e) eqn:E; inversion U; subst num den; clear U.
    + (* at least [2^52] seconds *)
      apply Z.leb_le in E. pose proof (pow2_pos e E).
      destruct Nlo as [Nlo | Nlo]; [|lia].
      assert (2 ^ 52 <= n / (b * 2 ^ e)).
      { apply Z.div_le_lower_bound; [assumption|]. lia. }
      assert (Hm180 : 180 <= m) by lia.
      transitivity true; [apply Z.leb_le; nia|].
      symmetry. apply Z.leb_le.
      assert (b * 2 ^ 52 <= n) by nia. lia.
    + apply Z.leb_gt in E. set (P := 2 ^ (- e)) in *.
      assert (HP : 0 < P) by (apply pow2_pos; lia).
      destruct (Z_le_gt_dec (180 * b) a) as [Hge | Hlt].
      * transitivity true; [|symmetry; apply Z.leb_le; lia].
        apply Z.leb_le.
        assert (180 * P <= n * P / b).
        { apply Z.div_le_lower_bound; [assumption|]. nia. }
        lia.
      * transitivity false; [|symmetry; apply Z.leb_gt; lia].
        apply Z.leb_gt.
        assert (He45 : e <= - 45) by (specialize (Hf8 ltac:(lia)); lia).
        assert (HP45 : 2 ^ 45 <= P) by (apply pow2_le; lia).
        assert (n * P / b < 180 * P - 1).
        { apply Z.div_lt_upper_bound; [assumption|]. nia. }
        lia.
Qed.

Lemma total_seconds_ge_180 (d : timedelta) :
  exists x, total_seconds d = Ok x
            /\ float_ge_int x 180 = (180000000 <=? td_us d).
Proof.
  destruct d as [a Hr]. unfold total_seconds. cbn [td_us].
  apply andb_prop in Hr. destruct Hr as [Hmin Hmax].
  apply Z.leb_le in Hmin, Hmax.
  exact (true_divide_ge_180 a 1000000 eq_refl (conj Hmin Hmax)).
Qed.

(** ** The long-form predicate *)

Lemma is_longform_parsed (env : Env) (iso_duration : JSON) (d : timedelta) :
  parse_duration env iso_duration = Parsed d ->
  is_longform env iso_duration = Ok (180 * 1000000 <=? td_us d).
Proof.
  intros Hp. unfold is_longform. rewrite Hp. cbn [rbind of_parsed].
  destruct (total_seconds_ge_180 d) as (x & Hx & Hge).
  rewrite Hx. cbn [rbind]. now rewrite Hge.
Qed.

Lemma is_longform_unparsed (env : Env) (iso_duration : JSON) (e : lib_error) :
  parse_duration env iso_duration = Rejected e ->
  is_longform env iso_duration = Raise (exn_of_lib e).
Proof. intros Hp. unfold is_longform. now rewrite Hp. Qed.

(** C8: [is_longform] answers [True] exactly when the duration parses to at
    least 180 seconds, and [False] exactly when it parses to less; a
    duration of 180 seconds ([PT3M]) qualifies, one of 179 seconds
    ([PT2M59S]) does not. *)
Theorem is_longform_threshold (env : Env) (iso_duration : JSON) :
  (is_longform env iso_duration = Ok true <->
   exists d, parse_duration env iso_duration = Parsed d
             /\ 180 * 1000000 <= td_us d)
  /\ (is_longform env iso_duration = Ok false <->
      exists d, parse_duration env iso_duration = Parsed d
                /\ td_us d < 180 * 1000000)
  /\ is_longform Standin.env (JStr "PT3M") = Ok true
  /\ is_longform Standin.env (JStr "PT2M59S") = Ok false.
Proof.
  assert (Hiff : forall b : bool,
    is_longform env iso_duration = Ok b <->
    exists d, parse_duration env iso_duration = Parsed d
              /\ (180 * 1000000 <=? td_us d) = b).
  { intros b. split.
    - intros H. destruct (parse_duration env iso_duration) as [d | e] eqn:Hp.
      + rewrite (is_longform_parsed env _ d Hp) in H. inversion H.
        exists d. split; reflexivity.
      + rewrite (is_longform_unparsed env _ e Hp) in H. discriminate.
    - intros (d & Hp & Hb). rewrite (is_longform_parsed env _ d Hp).
      now rewrite Hb. }
  split; [split|split; [split|split; reflexivity]].
  - intros H. apply Hiff in H. destruct H as (d & Hp & Hb).
    exists d. split; [assumption|]. now apply Z.leb_le.
  - intros (d & Hp & Hb). apply Hiff. exists d. split; [assumption|].
    now apply Z.leb_le.
  - intros H. apply Hiff in H. destruct H as (d & Hp & Hb).
    exists d. split; [assumption|]. now apply Z.leb_gt.
  - intros (d & Hp & Hb). apply Hiff. exists d. split; [assumption|].
    now apply Z.leb_gt.
Qed.

(** ** Averages *)







(** ** The long-form aggregator *)

Lemma py_get_count (env : Env) (stats : list (string * JSON)) (k : string) :
  rbind (py_get (JObj stats) k (JInt 0)) (py_int env) = count_field env stats k.
Proof.
  unfold count_field. cbn [py_get]. destruct (assoc k stats); reflexivity.
Qed.

Lemma py_int_not_KeyError (env : Env) (v : JSON) :
  py_int env v <> Raise KeyError.
Proof.
  destruct v as [| b | n | s | l | kvs]; cbn; try discriminate.
  destruct (int_of_str env s); discriminate.
Qed.

Lemma count_field_not_KeyError (env : Env) stats k :
  count_field env stats k <> Raise KeyError.
Proof.
  unfold count_field. destruct (assoc k stats).
  - apply py_int_not_KeyError.
  - discriminate.
Qed.

Lemma app_one_neq {A} (l : list A) (x : A) : l ++ [x] <> l.
Proof.
  intros H. apply (f_equal (@List.length A)) in H.
  rewrite length_app in H. cbn in H. lia.
Qed.

(** What the loop body does with a long-form item whose statistics are a
    dict. *)
Lemma collect_item_long (env : Env) (item : JSON)
  (stats : list (string * JSON)) (vs ls cs : list Z) :
  long_form_item env item ->
  py_getitem item "statistics" = Ok (JObj stats) ->
  collect_item env item (vs, ls, cs) =
    rbind (count_field env stats "viewCount") (fun v =>
    rbind (count_field env stats "likeCount") (fun l =>
    rbind (count_field env stats "commentCount") (fun c =>
    Ok (vs ++ [v], ls ++ [l], cs ++ [c])))).
Proof.
  intros (cd & d & Hcd & Hd & Hl) Hst.
  unfold collect_item. rewrite Hcd. cbn [rbind]. rewrite Hd. cbn [rbind].
  rewrite Hl. cbn [rbind]. rewrite Hst. cbn [rbind].
  pose proof (py_get_count env stats "viewCount") as Ev.
  pose proof (py_get_count env stats "likeCount") as El.
  pose proof (py_get_count env stats "commentCount") as Ec.
  pose proof (count_field_not_KeyError env stats "viewCount") as Nv.
  pose proof (count_field_not_KeyError env stats "likeCount") as Nl.
  pose proof (count_field_not_KeyError env stats "commentCount") as Nc.
  cbn [py_get] in *. unfold count_field in *.
  destruct (assoc "viewCount" stats) as [jv|]; cbn [rbind] in *;
    [destruct (py_int env jv) as [v|ev]; cbn [rbind rcatch];
       [|destruct ev; try reflexivity; congruence]|];
  (destruct (assoc "likeCount" stats) as [jl|]; cbn [rbind];
    [destruct (py_int env jl) as [l|el]; cbn [rbind rcatch];
       [|destruct el; try reflexivity; congruence]|]);
  (destruct (assoc "commentCount" stats) as [jc|]; cbn [rbind];
    [destruct (py_int env jc) as [c|ec]; cbn [rbind rcatch];
       [|destruct ec; try reflexivity; congruence]|]);
  reflexivity.
Qed.

Lemma is_longform_not_KeyError (env : Env) (iso_duration : JSON) :
  is_longform env iso_duration <> Raise KeyError.
Proof.
  unfold is_longform.
  destruct (parse_duration env iso_duration) as [d|[]];
    cbn [of_parsed rbind exn_of_lib]; try discriminate.
  destruct (total_seconds_ge_180 d) as (x & Hx & _). rewrite Hx.
  discriminate.
Qed.

(** A long-form item is passed over exactly when it has no statistics. *)
Lemma collect_item_long_skipped (env : Env) (item : JSON)
  (acc : list Z * list Z * list Z) :
  long_form_item env item ->
  collect_item env item acc = Ok acc <->
  py_getitem item "statistics" = Raise KeyError.
Proof.
  destruct acc as [[vs ls] cs]. intros Hlong. split.
  - intros Hskip.
    destruct (py_getitem item "statistics") as [st | e] eqn:Hst.
    + exfalso. destruct st as [| b | n | s | l | stats].
      6: { rewrite (collect_item_long env item stats vs ls cs Hlong Hst)
             in Hskip.
           destruct (count_field env stats "viewCount"); [|discriminate].
           destruct (count_field env stats "likeCount"); [|discriminate].
           destruct (count_field env stats "commentCount"); [|discriminate].
           cbn [rbind] in Hskip. inversion Hskip as [[Hvs Hls Hcs]].
           now apply app_one_neq in Hvs. }
      all: destruct Hlong as (cd & d & Hcd & Hd & Hl);
        unfold collect_item in Hskip;
        rewrite Hcd in Hskip; cbn [rbind] in Hskip;
        rewrite Hd in Hskip; cbn [rbind] in Hskip;
        rewrite Hl in Hskip; cbn [rbind] in Hskip;
        rewrite Hst in Hskip; cbn in Hskip; discriminate Hskip.
    + destruct Hlong as (cd & d & Hcd & _).
      destruct item as [| b | n | s | l | kvs];
        cbn in Hcd; try discriminate Hcd.
      cbn in Hst. destruct (assoc "statistics" kvs); [discriminate|].
      inversion Hst. reflexivity.
  - intros Hst. destruct Hlong as (cd & d & Hcd & Hd & Hl).
    unfold collect_item. rewrite Hcd. cbn [rbind]. rewrite Hd. cbn [rbind].
    rewrite Hl. cbn [rbind]. rewrite Hst. reflexivity.
Qed.

(** C10: a long-form item whose statistics object lacks a count is kept,
    the missing count entering as 0 (and so lowering that average); a
    long-form item is dropped exactly when it has no statistics object at
    all, any item is dropped when it has no duration, and an item that
    leaves the lists as they were either lacks its duration, or is not
    long-form, or is long-form without a statistics object. *)
Theorem missing_count_counts_as_zero (env : Env) :
  (forall item stats vs ls cs v l c,
      long_form_item env item ->
      py_getitem item "statistics" = Ok (JObj stats) ->
      count_field env stats "viewCount" = Ok v ->
      count_field env stats "likeCount" = Ok l ->
      count_field env stats "commentCount" = Ok c ->
      collect_item env item (vs, ls, cs)
      = Ok (vs ++ [v], ls ++ [l], cs ++ [c]))
  /\ (forall stats k, assoc k stats = None -> count_field env stats k = Ok 0)
  /\ (forall item acc,
         long_form_item env item ->
         (collect_item env item acc = Ok acc <->
          py_getitem item "statistics" = Raise KeyError))
  /\ (forall item acc,
         py_getitem item "contentDetails" = Raise KeyError
         \/ (exists cd, py_getitem item "contentDetails" = Ok cd
                        /\ py_getitem cd "duration" = Raise KeyError) ->
         collect_item env item acc = Ok acc)
  /\ (forall item acc,
         collect_item env item acc = Ok acc ->
         py_getitem item "contentDetails" = Raise KeyError
         \/ (exists cd, py_getitem item "contentDetails" = Ok cd
                        /\ py_getitem cd "duration" = Raise KeyError)
         \/ (exists cd duration,
                py_getitem item "contentDetails" = Ok cd
                /\ py_getitem cd "duration" = Ok duration
                /\ is_longform env duration = Ok false)
         \/ (long_form_item env item
             /\ py_getitem item "statistics" = Raise KeyError))
  /\ (collect_longform Standin.env
        [Example.video "PT5M" (Example.counts "100" "10" "2");
         Example.video "PT4M" [("likeCount", JStr "30")]] ([], [], [])
      = Ok ([100; 0], [10; 30], [2; 0])
      /\ average [100; 0] = Ok 50).
Proof.
  split; [|split; [|split; [|split; [|split]]]].
  - intros item stats vs ls cs v l c Hlong Hst Hv Hl Hc.
    rewrite (collect_item_long env item stats vs ls cs Hlong Hst).
    rewrite Hv, Hl, Hc. reflexivity.
  - intros stats k Hk. unfold count_field. now rewrite Hk.
  - intros item acc Hlong. now apply collect_item_long_skipped.
  - intros item [[vs ls] cs] [Hcd | (cd & Hcd & Hd)]; unfold collect_item.
    + rewrite Hcd. reflexivity.
    + rewrite Hcd. cbn [rbind]. rewrite Hd. reflexivity.
  - intros item acc Hskip.
    destruct (py_getitem item "contentDetails") as [cd|e] eqn:Hcd.
    2: { left. destruct (py_getitem_raises _ _ _ Hcd) as [-> | ->];
           [reflexivity|].
         exfalso. destruct acc as [[vs ls] cs]. unfold collect_item in Hskip.
         rewrite Hcd in Hskip. discriminate Hskip. }
    right. destruct (py_getitem cd "duration") as [d|e] eqn:Hd.
    2: { left. exists cd. split; [reflexivity|].
         destruct (py_getitem_raises _ _ _ Hd) as [-> | ->]; [exact Hd|].
         exfalso. destruct acc as [[vs ls] cs]. unfold collect_item in Hskip.
         rewrite Hcd in Hskip. cbn [rbind] in Hskip. rewrite Hd in Hskip.
         discriminate Hskip. }
    right. destruct (is_longform env d) as [[|]|e] eqn:Hl.
    + right. assert (Hlong : long_form_item env item).
      { exists cd, d. repeat split; assumption. }
      split; [exact Hlong|].
      now apply (collect_item_long_skipped env item acc Hlong).
    + left. exists cd, d. repeat split; assumption.
    + exfalso. destruct acc as [[vs ls] cs]. unfold collect_item in Hskip.
      rewrite Hcd in Hskip. cbn [rbind] in Hskip. rewrite Hd in Hskip.
      cbn [rbind] in Hskip. rewrite Hl in Hskip. cbn [rbind rcatch] in Hskip.
      destruct (exn_eqb e KeyError) eqn:E; [|discriminate Hskip].
      destruct e; try discriminate E.
      exact (is_longform_not_KeyError env d Hl).
  - split; reflexivity.
Qed.

Lemma missing_count_counts_as_zero_witness :
  collect_item Standin.env (Example.video "PT4M" [("likeCount", JStr "30")])
    ([100], [10], [2])
  = Ok ([100; 0], [10; 30], [2; 0]).
Proof.
  apply (proj1 (missing_count_counts_as_zero Standin.env)
           (Example.video "PT4M" [("likeCount", JStr "30")])
           [("likeCount", JStr "30")] [100] [10] [2] 0 30 0).
  - exists (JObj [("duration", JStr "PT4M")]), (JStr "PT4M").
    repeat split; reflexivity.
  - reflexivity.
  - reflexivity.
  - reflexivity.
  - reflexivity.
Defined.

(** ** Running the driver *)

Section Runs.

Variable env : Env.
Variable world : World.

Lemma update_airtable_record_returns (record_id : JSON) (fields : Fields)
  (s : State) :
  update_airtable_record world record_id fields s
  = Returns tt (log_call (AirtableUpdate record_id fields) s).
Proof.
  unfold update_airtable_record, catch, bind, http, ret.
  destruct (world _ _); reflexivity.
Qed.

Lemma bind_returns {A B} (m : M A) (k : A -> M B) (s s' : State) (a : A) :
  m s = Returns a s' -> bind m k s = k a s'.
Proof. intros H. unfold bind. now rewrite H. Qed.

Lemma bind_lift_ok {A B} (r : result A) (k : A -> M B) (s : State) (a : A) :
  r = Ok a -> bind (lift r) k s = k a s.
Proof. intros ->. reflexivity. Qed.

Lemma main_loop_step (fuel : nat) (record : JSON) (rest : list JSON)
  (updated_count : Z) (s s' : State) (counted : bool) :
  error_count s < ERROR_LIMIT ->
  process_record env world fuel record s = Returns counted s' ->
  main_loop env world fuel (record :: rest) updated_count s
  = main_loop env world fuel rest
      (if counted then updated_count + 1 else updated_count) s'.
Proof.
  intros Hb Hp. cbn [main_loop]. unfold bind at 1, get_error_count.
  destruct (ERROR_LIMIT <=? error_count s) eqn:E;
    [apply Z.leb_le in E; lia|].
  unfold bind. now rewrite Hp.
Qed.


Lemma process_record_aggregates (fuel : nat) (record record_id : JSON)
  (video_ids stats : list JSON) (s s2 s3 : State)
  (views likes comments : list Z) (avg_views avg_likes avg_comments : Z) :
  recent_videos_of env world fuel record s record_id video_ids s2 ->
  video_ids <> [] ->
  get_video_stats_batch world video_ids s2 = Returns stats s3 ->
  collect_longform env stats ([], [], []) = Ok (views, likes, comments) ->
  average views = Ok avg_views ->
  average likes = Ok avg_likes ->
  average comments = Ok avg_comments ->
  process_record env world fuel record s
  = Returns true
      (log_call (AirtableUpdate record_id
                   {| LGVPV90 := avg_views; LGLPV90 := avg_likes;
                      LGCPV90 := avg_comments |}) s3).
Proof.
  intros (fields & cid & pl & s1 & Hf & Hc & Tc & Hid & Hpl & Tpl & Hids).
  intros Hne Hst Hcol Hv Hl Hcm.
  unfold process_record.
  rewrite (bind_lift_ok _ _ _ _ Hf), (bind_lift_ok _ _ _ _ Hc), Tc.
  cbn [negb]. rewrite (bind_lift_ok _ _ _ _ Hid).
  rewrite (bind_returns _ _ _ _ _ Hpl), Tpl. cbn [negb].
  rewrite (bind_returns _ _ _ _ _ Hids).
  destruct video_ids as [|v0 vids]; [congruence|].
  unfold aggregate_and_update.
  unfold bind at 1. unfold bind at 1. rewrite Hst.
  rewrite (bind_lift_ok _ _ _ _ Hcol).
  rewrite (bind_lift_ok _ _ _ _ Hv), (bind_lift_ok _ _ _ _ Hl),
    (bind_lift_ok _ _ _ _ Hcm), (bind_lift_ok _ _ _ _ Hid).
  unfold bind. rewrite update_airtable_record_returns. reflexivity.
Qed.

(** The three lists grow together. *)
Lemma collect_item_lengths (item : JSON) (vs ls cs vs' ls' cs' : list Z) :
  collect_item env item (vs, ls, cs) = Ok (vs', ls', cs') ->
  List.length vs = List.length ls /\ List.length ls = List.length cs ->
  List.length vs' = List.length ls' /\ List.length ls' = List.length cs'.
Proof.
  unfold collect_item, rcatch, rbind. intros H [E1 E2].
  repeat case_inner_in H;
    inversion H; subst; rewrite ?length_app; cbn; lia.
Qed.

Lemma collect_longform_lengths (items : list JSON)
  (vs ls cs vs' ls' cs' : list Z) :
  collect_longform env items (vs, ls, cs) = Ok (vs', ls', cs') ->
  List.length vs = List.length ls /\ List.length ls = List.length cs ->
  List.length vs' = List.length ls' /\ List.length ls' = List.length cs'.
Proof.
  revert vs ls cs. induction items as [|item items IH]; intros vs ls cs H E.
  - inversion H; subst. assumption.
  - cbn [collect_longform] in H.
    destruct (collect_item env item (vs, ls, cs)) as [[[v1 l1] c1]|] eqn:Hi;
      [|discriminate].
    cbn [rbind] in H. apply (IH _ _ _ H).
    exact (collect_item_lengths _ _ _ _ _ _ _ Hi E).
Qed.

End Runs.

(** ** The aggregates a record is written with *)










(** C9: a record with recent videos whose statistics fetch comes back
    empty is written with the three aggregates at 0 and is counted, by the
    same update as a channel without long-form activity. *)
Theorem empty_stats_writes_zeros (env : Env) (world : World) (fuel : nat)
  (record : JSON) (rest : list JSON) (record_id : JSON) (updated_count : Z)
  (video_ids : list JSON) (s s2 s3 : State) :
  error_count s < ERROR_LIMIT ->
  recent_videos_of env world fuel record s record_id video_ids s2 ->
  video_ids <> [] ->
  get_video_stats_batch world video_ids s2 = Returns [] s3 ->
  process_record env world fuel record s
  = Returns true (log_call (AirtableUpdate record_id zero_fields) s3)
  /\ main_loop env world fuel (record :: rest) updated_count s
     = main_loop env world fuel rest (updated_count + 1)
         (log_call (AirtableUpdate record_id zero_fields) s3).
Proof.
  intros Hb Hr Hne Hst.
  assert (Hp : process_record env world fuel record s
               = Returns true
                   (log_call (AirtableUpdate record_id zero_fields) s3)).
  { exact (process_record_aggregates env world fuel record record_id
             video_ids [] s s2 s3 [] [] [] 0 0 0 Hr Hne Hst
             eq_refl eq_refl eq_refl eq_refl). }
  split; [exact Hp|].
  exact (main_loop_step env world fuel record rest updated_count s _ true
           Hb Hp).
Qed.

Lemma empty_stats_writes_zeros_witness :
  main_loop Standin.env Example.no_statistics 5
    [Example.tracked "recA" "UC_alpha"] 0 initial_state
  = Returns 1
      {| error_count := 1;
         calls := [Channels (JStr "UC_alpha");
                   PlaylistItems (JStr "UU_alpha") None;
                   Videos ["v1"; "v2"];
                   AirtableUpdate (JStr "recA") zero_fields] |}.
Proof.
  rewrite (proj2 (empty_stats_writes_zeros
                    Standin.env Example.no_statistics 5
                    (Example.tracked "recA" "UC_alpha") [] (JStr "recA") 0
                    [JStr "v1"; JStr "v2"] initial_state
                    {| error_count := 0;
                       calls := [Channels (JStr "UC_alpha");
                                 PlaylistItems (JStr "UU_alpha") None] |}
                    {| error_count := 1;
                       calls := [Channels (JStr "UC_alpha");
                                 PlaylistItems (JStr "UU_alpha") None;
                                 Videos ["v1"; "v2"]] |}
                    ltac:(reflexivity)
                    ltac:(exists (JObj [("YouTube Channel ID",
                                         JStr "UC_alpha")]),
                            (JStr "UC_alpha"), (JStr "UU_alpha"),
                            {| error_count := 0;
                               calls := [Channels (JStr "UC_alpha")] |};
                          repeat split; reflexivity)
                    ltac:(discriminate)
                    ltac:(reflexivity))).
  reflexivity.
Defined.

(** ** Fuel

    The fuel only bounds the two [while True] loops: a run that ended is
    the same run with more fuel. *)

Section Fuel.

Variable env : Env.
Variable world : World.

Lemma bind_more_fuel {A B} (m m' : M A) (k k' : A -> M B) (s : State) :
  finished (bind m k s) = true ->
  (finished (m s) = true -> m' s = m s) ->
  (forall a s', m s = Returns a s' -> finished (k a s') = true ->
                k' a s' = k a s') ->
  bind m' k' s = bind m k s.
Proof.
  unfold bind. intros Hf Hm Hk.
  destruct (m s) as [a s1 | e s1 | s1] eqn:E; cbn in Hf.
  - rewrite (Hm eq_refl). now apply Hk.
  - now rewrite (Hm eq_refl).
  - discriminate.
Qed.

Lemma get_airtable_records_loop_more_fuel (fuel : nat)
  (records : list JSON) (offset : JSON) (s : State) :
  finished (get_airtable_records_loop world fuel records offset s) = true ->
  get_airtable_records_loop world (S fuel) records offset s
  = get_airtable_records_loop world fuel records offset s.
Proof.
  revert records offset s.
  induction fuel as [|fuel IH]; intros records offset s H; [discriminate|].
  cbn [get_airtable_records_loop] in H |- *.
  apply bind_more_fuel; [exact H | reflexivity|].
  intros [[r o]|[r o]] s1 _ Hk; [reflexivity|]. now apply IH.
Qed.

Lemma get_recent_video_ids_loop_more_fuel (fuel : nat) (playlist_id : JSON)
  (video_ids : list JSON) (next_page : JSON) (s : State) :
  finished
    (get_recent_video_ids_loop env world fuel playlist_id video_ids
       next_page s) = true ->
  get_recent_video_ids_loop env world (S fuel) playlist_id video_ids
    next_page s
  = get_recent_video_ids_loop env world fuel playlist_id video_ids
      next_page s.
Proof.
  revert video_ids next_page s.
  induction fuel as [|fuel IH]; intros video_ids next_page s H;
    [discriminate|].
  cbn [get_recent_video_ids_loop] in H |- *.
  apply bind_more_fuel; [exact H | reflexivity|].
  intros [[ids n]|[ids n]] s1 _ Hk; [reflexivity|]. now apply IH.
Qed.

Lemma process_record_more_fuel (fuel : nat) (record : JSON) (s : State) :
  finished (process_record env world fuel record s) = true ->
  process_record env world (S fuel) record s
  = process_record env world fuel record s.
Proof.
  unfold process_record. intros H.
  apply bind_more_fuel; [exact H | reflexivity|]. intros fields s1 _ H1.
  apply bind_more_fuel; [exact H1 | reflexivity|]. intros channel_id s2 _ H2.
  destruct (negb (truthy channel_id)); [reflexivity|].
  apply bind_more_fuel; [exact H2 | reflexivity|]. intros _ s3 _ H3.
  apply bind_more_fuel; [exact H3 | reflexivity|]. intros playlist_id s4 _ H4.
  destruct (negb (truthy playlist_id)); [reflexivity|].
  apply bind_more_fuel; [exact H4 | |].
  - apply get_recent_video_ids_loop_more_fuel.
  - intros video_ids s5 _ H5. reflexivity.
Qed.

Lemma main_loop_more_fuel (fuel : nat) (records : list JSON)
  (updated_count : Z) (s : State) :
  finished (main_loop env world fuel records updated_count s) = true ->
  main_loop env world (S fuel) records updated_count s
  = main_loop env world fuel records updated_count s.
Proof.
  revert updated_count s.
  induction records as [|record rest IH]; intros c s H; [reflexivity|].
  cbn [main_loop] in H |- *.
  apply bind_more_fuel; [exact H | reflexivity|]. intros errors s1 _ H1.
  destruct (ERROR_LIMIT <=? errors); [reflexivity|].
  apply bind_more_fuel; [exact H1 | apply process_record_more_fuel|].
  intros counted s2 _ H2. now apply IH.
Qed.

(** A run of [main] that ended is unchanged by more fuel. *)
Lemma main_more_fuel (fuel extra : nat) (s : State) :
  finished (main env world fuel s) = true ->
  main env world (extra + fuel) s = main env world fuel s.
Proof.
  intros H. induction extra as [|extra IH]; [reflexivity|].
  rewrite <- IH in H |- *. cbn [Nat.add].
  unfold main in H |- *. destruct (negb _); [reflexivity|].
  apply bind_more_fuel; [exact H | |].
  - apply get_airtable_records_loop_more_fuel.
  - intros [|r rs] s1 _ H1; [reflexivity|].
    apply bind_more_fuel; [exact H1 | apply main_loop_more_fuel|].
    reflexivity.
Qed.

End Fuel.

(** ** The error budget *)

Lemma main_loop_over_budget (env : Env) (world : World) (fuel : nat)
  (records : list JSON) (updated_count : Z) (s : State) :
  ERROR_LIMIT <= error_count s ->
  main_loop env world fuel records updated_count s = Returns updated_count s.
Proof.
  intros Hb. destruct records as [|record rest]; [reflexivity|].
  cbn [main_loop]. unfold bind, get_error_count.
  apply Z.leb_le in Hb. now rewrite Hb.
Qed.

(** Running the loop over [rs1 ++ rs2] is running it over [rs1] and then,
    if that returned, over [rs2]. *)
Lemma main_loop_app (env : Env) (world : World) (fuel : nat)
  (rs1 rs2 : list JSON) (updated_count : Z) (s : State) :
  main_loop env world fuel (rs1 ++ rs2) updated_count s
  = match main_loop env world fuel rs1 updated_count s with
    | Returns u' s' => main_loop env world fuel rs2 u' s'
    | o => o
    end.
Proof.
  revert updated_count s.
  induction rs1 as [|record rs1 IH]; intros u s; [reflexivity|].
  cbn [app main_loop]. unfold bind at 1 3, get_error_count.
  destruct (ERROR_LIMIT <=? error_count s) eqn:E.
  - unfold ret. symmetry. apply main_loop_over_budget. now apply Z.leb_le.
  - unfold bind. destruct (process_record env world fuel record s);
      [apply IH | reflexivity | reflexivity].
Qed.

(** C4: once the error count has reached 10 the loop returns at its next
    check without touching the state, whatever records remain; so a run
    that has reached the threshold after some records ends the same way
    with any further records appended.  With the platform unreachable and
    eleven records, ten are processed and the eleventh is never looked
    up. *)
Theorem budget_halts_the_run (env : Env) (world : World) (fuel : nat) :
  (forall records updated_count s,
      ERROR_LIMIT <= error_count s ->
      main_loop env world fuel records updated_count s
      = Returns updated_count s)
  /\ (forall done remaining updated_count s updated_count' s',
         main_loop env world fuel done updated_count s
         = Returns updated_count' s' ->
         ERROR_LIMIT <= error_count s' ->
         main_loop env world fuel (done ++ remaining) updated_count s
         = Returns updated_count' s')
  /\ (exists s,
         main Standin.env Example.outage 3 initial_state
         = Returns (Some 10) s
         /\ error_count s = 10
         /\ (forall r, In r (calls s) ->
                       r <> Channels (JStr "UC11")
                       /\ forall f, r <> AirtableUpdate (JStr "rec11") f)).
Proof.
  split; [|split].
  - intros records u s Hb. now apply main_loop_over_budget.
  - intros rs1 rs2 u s u' s' Hrun Hb.
    rewrite main_loop_app, Hrun. now apply main_loop_over_budget.
  - eexists. split; [vm_compute; reflexivity|]. split; [reflexivity|].
    intros r Hin. cbn in Hin.
    repeat (destruct Hin as [<- | Hin];
            [split; [discriminate | intros f; discriminate]|]).
    destruct Hin.
Qed.

Lemma budget_halts_the_run_witness :
  main_loop Standin.env Example.outage 3 Example.eleven 0 initial_state
  = Returns 10
      (final_state (main_loop Standin.env Example.outage 3
                      (firstn 10 Example.eleven) 0 initial_state)).
Proof.
  apply (proj1 (proj2 (budget_halts_the_run Standin.env Example.outage 3))
           (firstn 10 Example.eleven) (skipn 10 Example.eleven)
           0 initial_state 10).
  - vm_compute. reflexivity.
  - vm_compute. discriminate.
Defined.

(** ** The recency filter *)

Lemma scan_item_none_found (env : Env) (item : JSON)
  (video_ids video_ids' : list JSON) (found : bool) :
  scan_item env item (video_ids, found) = Ok (video_ids', false) ->
  video_ids' = video_ids /\ found = false.
Proof.
  unfold scan_item, rcatch, rbind. intros H.
  repeat case_inner_in H; inversion H; subst; split; reflexivity.
Qed.

Lemma scan_page_none_found (env : Env) (items : list JSON)
  (video_ids video_ids' : list JSON) (found : bool) :
  scan_page env items (video_ids, found) = Ok (video_ids', false) ->
  video_ids' = video_ids /\ found = false.
Proof.
  revert video_ids found.
  induction items as [|item items IH]; intros ids found H.
  - inversion H. split; reflexivity.
  - cbn [scan_page] in H.
    destruct (scan_item env item (ids, found)) as [[ids1 found1]|] eqn:Hi;
      [|discriminate].
    cbn [rbind] in H. destruct (IH _ _ H) as [-> ->].
    exact (scan_item_none_found env item ids ids1 found Hi).
Qed.

(** A page that iterates to something is the page [data.get('items')]
    sees, and it is truthy. *)
Lemma nonempty_page_present (data page : JSON) (items : list JSON) :
  py_get data "items" (JArr []) = Ok page ->
  py_iter page = Ok items -> items <> [] ->
  py_get data "items" JNull = Ok page /\ truthy page = true.
Proof.
  intros Hget Hiter Hne.
  assert (Ht : truthy page = true).
  { destruct page as [| b | n | s | l | kvs]; cbn in Hiter; try discriminate.
    - destruct s; cbn in Hiter; [inversion Hiter; subst; congruence | reflexivity].
    - destruct l; [inversion Hiter; subst; congruence | reflexivity].
    - destruct kvs; [inversion Hiter; subst; congruence | reflexivity]. }
  split; [|exact Ht].
  destruct data as [| b | n | s | l | kvs]; cbn in Hget |- *; try discriminate.
  destruct (assoc "items" kvs); [assumption|].
  inversion Hget; subst. discriminate Ht.
Qed.

Lemma empty_page_absent (data page : JSON) :
  py_get data "items" (JArr []) = Ok page ->
  py_iter page = Ok [] ->
  exists present, py_get data "items" JNull = Ok present
                  /\ truthy present = false.
Proof.
  intros Hget Hiter.
  assert (Ht : truthy page = false).
  { destruct page as [| b | n | s | l | kvs]; cbn in Hiter; try discriminate.
    - destruct s; cbn in Hiter; [reflexivity | discriminate].
    - destruct l; [reflexivity | discriminate].
    - destruct kvs; [reflexivity | discriminate]. }
  destruct data as [| b | n | s | l | kvs]; cbn in Hget |- *; try discriminate.
  destruct (assoc "items" kvs).
  - exists j. inversion Hget; subst. split; [reflexivity | assumption].
  - exists JNull. split; reflexivity.
Qed.

(** C3: a fetched page that has items none of which qualifies ends the
    pagination at once, with the identifiers collected before it and no
    further request; a page without items does not, and the next page is
    fetched.  On the list whose pages hold five recent items, three old
    ones and ten recent ones, the filter returns the first five identifiers
    after two requests. *)
Theorem recency_filter_early_stop (env : Env) (world : World) :
  (forall fuel playlist_id video_ids video_ids' next_page s data page items,
      world (List.length (calls s))
        (PlaylistItems playlist_id (param_if_truthy next_page)) = Body data ->
      py_get data "items" (JArr []) = Ok page ->
      py_iter page = Ok items ->
      items <> [] ->
      scan_page env items (video_ids, false) = Ok (video_ids', false) ->
      get_recent_video_ids_loop env world (S fuel) playlist_id video_ids
        next_page s
      = Returns video_ids
          (log_call (PlaylistItems playlist_id (param_if_truthy next_page))
             s))
  /\ (forall fuel playlist_id video_ids next_page s data page token,
         world (List.length (calls s))
           (PlaylistItems playlist_id (param_if_truthy next_page))
         = Body data ->
         py_get data "items" (JArr []) = Ok page ->
         py_iter page = Ok [] ->
         py_get data "nextPageToken" JNull = Ok token ->
         truthy token = true ->
         get_recent_video_ids_loop env world (S fuel) playlist_id video_ids
           next_page s
         = get_recent_video_ids_loop env world fuel playlist_id video_ids
             token
             (log_call
                (PlaylistItems playlist_id (param_if_truthy next_page)) s))
  /\ (forall fuel,
         get_recent_video_ids Standin.env Example.world (S (S fuel))
           (JStr "UU_pages") initial_state
         = Returns [JStr "a1"; JStr "a2"; JStr "a3"; JStr "a4"; JStr "a5"]
             {| error_count := 0;
                calls := [PlaylistItems (JStr "UU_pages") None;
                          PlaylistItems (JStr "UU_pages")
                            (Some (JStr "p2"))] |}).
Proof.
  split; [|split].
  - intros fuel pl ids ids' next s data page items Hw Hget Hiter Hne Hscan.
    destruct (scan_page_none_found env items ids ids' false Hscan) as [-> _].
    destruct (nonempty_page_present data page items Hget Hiter Hne)
      as [Hpresent Htruthy].
    cbn [get_recent_video_ids_loop].
    unfold get_recent_video_ids_body, bind, catch, http, ret, lift.
    rewrite Hw, Hget, Hiter, Hscan, Hpresent, Htruthy. reflexivity.
  - intros fuel pl ids next s data page token Hw Hget Hiter Htok Htruthy.
    destruct (empty_page_absent data page Hget Hiter)
      as (present & Hpresent & Hfalse).
    cbn [get_recent_video_ids_loop].
    unfold get_recent_video_ids_body, bind, catch, http, ret, lift.
    rewrite Hw, Hget, Hiter. cbn [scan_page].
    rewrite Hpresent, Hfalse, Htok, Htruthy. reflexivity.
  - intros fuel. reflexivity.
Qed.

Lemma recency_filter_early_stop_witness :
  get_recent_video_ids_loop Standin.env Example.world 1 (JStr "UU_pages")
    (map JStr ["a1"; "a2"; "a3"; "a4"; "a5"]) (JStr "p2")
    {| error_count := 0; calls := [PlaylistItems (JStr "UU_pages") None] |}
  = Returns (map JStr ["a1"; "a2"; "a3"; "a4"; "a5"])
      {| error_count := 0;
         calls := [PlaylistItems (JStr "UU_pages") None;
                   PlaylistItems (JStr "UU_pages") (Some (JStr "p2"))] |}
  /\ get_recent_video_ids_loop Standin.env Example.world 2 (JStr "UU_gap")
       [] JNull initial_state
     = get_recent_video_ids_loop Standin.env Example.world 1 (JStr "UU_gap")
         [] (JStr "g2")
         {| error_count := 0; calls := [PlaylistItems (JStr "UU_gap") None] |}.
Proof.
  split.
  - apply (proj1 (recency_filter_early_stop Standin.env Example.world)
             0%nat (JStr "UU_pages")
             (map JStr ["a1"; "a2"; "a3"; "a4"; "a5"])
             (map JStr ["a1"; "a2"; "a3"; "a4"; "a5"]) (JStr "p2")
             {| error_count := 0;
                calls := [PlaylistItems (JStr "UU_pages") None] |}
             (Example.page Example.second_page (Some "p3"))
             (JArr Example.second_page) Example.second_page).
    + reflexivity.
    + reflexivity.
    + reflexivity.
    + discriminate.
    + reflexivity.
  - apply (proj1 (proj2 (recency_filter_early_stop Standin.env Example.world))
             1%nat (JStr "UU_gap") [] JNull initial_state
             (Example.page [] (Some "g2")) (JArr []) (JStr "g2")).
    + reflexivity.
    + reflexivity.
    + reflexivity.
    + reflexivity.
    + reflexivity.
Defined.

(** ** Quantities kept by the components *)

Section Measure.

Variable env : Env.
Variable world : World.
Variable f : State -> Z.
Variables b u : Z.

Hypothesis f_incr : forall s,
  f {| error_count := error_count s + 1; calls := calls s |} = f s + b.
Hypothesis f_call : forall r s,
  f (log_call r s) = f s + call_effect world b u r s.

Ltac measure_leaf W :=
  cbn [final_state exn_eqb];
  rewrite ?f_incr, ?f_call; unfold call_effect; rewrite ?W;
  cbn [failed]; try lia.

Lemma get_uploads_playlist_id_keeps (channel_id : JSON) (s : State) :
  f (final_state (get_uploads_playlist_id world channel_id s)) = f s.
Proof.
  unfold get_uploads_playlist_id. run_effects.
  destruct (world _ _) eqn:W; [measure_leaf W|].
  repeat (case_inner; try pure_exn; cbn [exn_eqb]); measure_leaf W.
Qed.

Lemma get_airtable_records_loop_keeps (fuel : nat) (records : list JSON)
  (offset : JSON) (s : State) :
  f (final_state (get_airtable_records_loop world fuel records offset s))
  = f s.
Proof.
  revert records offset s.
  induction fuel as [|fuel IH]; intros records offset s; [reflexivity|].
  cbn [get_airtable_records_loop].
  unfold get_airtable_records_body. run_effects.
  destruct (world _ _) eqn:W; [measure_leaf W|].
  repeat (case_inner; try pure_exn; cbn [exn_eqb]);
    rewrite ?IH; measure_leaf W.
Qed.

Lemma get_recent_video_ids_loop_keeps (fuel : nat) (playlist_id : JSON)
  (video_ids : list JSON) (next_page : JSON) (s : State) :
  f (final_state
       (get_recent_video_ids_loop env world fuel playlist_id video_ids
          next_page s))
  = f s.
Proof.
  revert video_ids next_page s.
  induction fuel as [|fuel IH]; intros video_ids next_page s; [reflexivity|].
  cbn [get_recent_video_ids_loop].
  unfold get_recent_video_ids_body. run_effects.
  destruct (world _ _) eqn:W; [measure_leaf W|].
  cbn [exn_eqb].
  repeat case_inner; rewrite ?IH; measure_leaf W.
Qed.

Lemma get_video_stats_batch_loop_keeps (video_ids : list JSON)
  (starts : list nat) (stats_data : list JSON) (s : State) :
  f (final_state
       (get_video_stats_batch_loop world video_ids starts stats_data s))
  = f s.
Proof.
  revert stats_data s.
  induction starts as [|i starts IH]; intros stats_data s; [reflexivity|].
  cbn [get_video_stats_batch_loop]. run_effects.
  destruct (join_operand _); [|reflexivity].
  destruct (world _ _) eqn:W; [measure_leaf W|].
  repeat (case_inner; try pure_exn; cbn [exn_eqb]);
    rewrite ?IH; measure_leaf W.
Qed.

Lemma update_airtable_record_adds (record_id : JSON) (fields : Fields)
  (s : State) :
  update_airtable_record world record_id fields s
  = Returns tt (log_call (AirtableUpdate record_id fields) s)
  /\ f (log_call (AirtableUpdate record_id fields) s) = f s + u.
Proof.
  split.
  - unfold update_airtable_record. run_effects.
    destruct (world _ _); reflexivity.
  - rewrite f_call. reflexivity.
Qed.

Lemma aggregate_and_update_adds (record : JSON) (video_ids : list JSON)
  (s : State) :
  match aggregate_and_update env world record video_ids s with
  | Returns _ s' => f s' = f s + u
  | Raises _ s' => f s' = f s
  | OutOfFuel s' => f s' = f s
  end.
Proof.
  unfold aggregate_and_update, get_video_stats_batch.
  pose proof (get_video_stats_batch_loop_keeps video_ids
                (range_step (List.length video_ids) 50) [] s) as K.
  unfold bind at 1.
  destruct (get_video_stats_batch_loop _ _ _ _ _) as [stats s1 | e s1 | s1];
    cbn [final_state] in K; [|assumption|assumption].
  unfold bind, lift, ret.
  destruct (collect_longform env stats _) as [[[vs ls] cs]|]; [|assumption].
  destruct (average vs); [|assumption].
  destruct (average ls); [|assumption].
  destruct (average cs); [|assumption].
  destruct (py_getitem record "id"); [|assumption].
  destruct (update_airtable_record_adds a2
              {| LGVPV90 := a; LGLPV90 := a0; LGCPV90 := a1 |} s1)
    as [-> Hf].
  lia.
Qed.

(** The loop body sent an update exactly when it says the record is
    counted. *)
Lemma process_record_effect (fuel : nat) (record : JSON) (s : State) :
  match process_record env world fuel record s with
  | Returns counted s' => f s' = f s + (if counted then u else 0)
  | Raises _ s' => f s' = f s
  | OutOfFuel s' => f s' = f s
  end.
Proof.
  unfold process_record.
  unfold bind at 1, lift at 1.
  destruct (py_getitem record "fields") as [fields|]; [|reflexivity].
  unfold bind at 1, lift at 1.
  destruct (py_get fields _ _) as [channel_id|]; [|reflexivity].
  destruct (truthy channel_id); cbn [negb].
  2: { unfold bind, lift, ret. destruct (py_getitem record "id"); lia. }
  unfold bind at 1, lift at 1.
  destruct (py_getitem record "id") as [record_id|] eqn:Hid; [|reflexivity].
  unfold bind at 1.
  pose proof (get_uploads_playlist_id_keeps channel_id s) as K1.
  destruct (get_uploads_playlist_id world channel_id s)
    as [playlist_id s1 | e s1 | s1]; cbn [final_state] in K1;
    [|assumption|assumption].
  destruct (truthy playlist_id); cbn [negb].
  2: { unfold bind, lift, ret.
       destruct (update_airtable_record_adds record_id zero_fields s1)
         as [-> Hf]. lia. }
  unfold bind at 1, get_recent_video_ids.
  pose proof (get_recent_video_ids_loop_keeps fuel playlist_id [] JNull s1)
    as K2.
  destruct (get_recent_video_ids_loop _ _ _ _ _ _ _)
    as [video_ids s2 | e s2 | s2]; cbn [final_state] in K2; [|lia|lia].
  destruct video_ids as [|v vs].
  - unfold bind, lift, ret.
    destruct (update_airtable_record_adds record_id zero_fields s2)
      as [-> Hf]. lia.
  - unfold bind, ret.
    pose proof (aggregate_and_update_adds record (v :: vs) s2) as K3.
    destruct (aggregate_and_update _ _ _ _ _); lia.
Qed.

(** The effect of the loop: [u] per record counted when it returns, and a
    whole number of [u] anyway. *)
Lemma main_loop_effect (fuel : nat) (records : list JSON)
  (updated_count : Z) (s : State) :
  match main_loop env world fuel records updated_count s with
  | Returns updated_count' s' =>
      f s' = f s + (updated_count' - updated_count) * u
  | Raises _ s' => exists k, f s' = f s + k * u
  | OutOfFuel s' => exists k, f s' = f s + k * u
  end.
Proof.
  revert updated_count s.
  induction records as [|record rest IH]; intros c s.
  - cbn. lia.
  - cbn [main_loop]. unfold bind at 1, get_error_count.
    destruct (ERROR_LIMIT <=? error_count s); [unfold ret; lia|].
    unfold bind.
    pose proof (process_record_effect fuel record s) as P.
    destruct (process_record env world fuel record s)
      as [counted s1 | e s1 | s1];
      [|exists 0; lia|exists 0; lia].
    specialize (IH (if counted then c + 1 else c) s1).
    destruct (main_loop env world fuel rest _ s1) as [c' s' | e s' | s'].
    + destruct counted; lia.
    + destruct IH as [k Hk]. destruct counted.
      * exists (k + 1). lia.
      * exists k. lia.
    + destruct IH as [k Hk]. destruct counted.
      * exists (k + 1). lia.
      * exists k. lia.
Qed.

Lemma main_effect (fuel : nat) (s : State) :
  match main env world fuel s with
  | Returns (Some updated_count) s' => f s' = f s + updated_count * u
  | Returns None s' => f s' = f s
  | Raises _ s' => exists k, f s' = f s + k * u
  | OutOfFuel s' => exists k, f s' = f s + k * u
  end.
Proof.
  unfold main.
  destruct (negb _); [reflexivity|].
  unfold bind at 1, get_airtable_records.
  pose proof (get_airtable_records_loop_keeps fuel [] JNull s) as K.
  destruct (get_airtable_records_loop world fuel [] JNull s)
    as [records s1 | e s1 | s1]; cbn [final_state] in K;
    [|exists 0; lia|exists 0; lia].
  destruct records as [|r rs]; [exact K|].
  unfold bind, ret.
  pose proof (main_loop_effect fuel (r :: rs) 0 s1) as L.
  destruct (main_loop env world fuel (r :: rs) 0 s1) as [c s' | e s' | s'].
  - lia.
  - destruct L as [k Hk]. exists k. lia.
  - destruct L as [k Hk]. exists k. lia.
Qed.

End Measure.

(** ** The two quantities *)

Lemma transport_failures_from_snoc (world : World) (log : list Request)
  (r : Request) (i : nat) :
  transport_failures_from world i (log ++ [r])
  = transport_failures_from world i log
    + (if counted r && failed (world (i + List.length log)%nat r)
       then 1 else 0).
Proof.
  revert i. induction log as [|r0 log IH]; intros i; cbn.
  - rewrite Nat.add_0_r. lia.
  - rewrite IH. replace (S i + List.length log)%nat
      with (i + S (List.length log))%nat by lia. lia.
Qed.

Lemma counter_excess_incr (world : World) (s : State) :
  counter_excess world
    {| error_count := error_count s + 1; calls := calls s |}
  = counter_excess world s + 1.
Proof. unfold counter_excess, transport_failures. cbn. lia. Qed.

Lemma counter_excess_call (world : World) (r : Request) (s : State) :
  counter_excess world (log_call r s)
  = counter_excess world s + call_effect world 1 0 r s.
Proof.
  unfold counter_excess, transport_failures, log_call.
  cbn [calls error_count].
  rewrite transport_failures_from_snoc. cbn [Nat.add].
  unfold call_effect. destruct r; cbn [counted andb];
    try destruct (failed _); lia.
Qed.

Lemma updates_incr (s : State) :
  updates_issued {| error_count := error_count s + 1; calls := calls s |}
  = updates_issued s + 0.
Proof. unfold updates_issued. cbn. lia. Qed.

Lemma updates_call (world : World) (r : Request) (s : State) :
  updates_issued (log_call r s)
  = updates_issued s + call_effect world 0 1 r s.
Proof.
  unfold updates_issued, log_call. cbn [calls].
  rewrite filter_app, length_app. unfold call_effect.
  destruct r; cbn; try destruct (failed _); lia.
Qed.

Lemma error_count_call (world : World) (r : Request) (s : State) :
  error_count (log_call r s) = error_count s + call_effect world 0 0 r s.
Proof.
  unfold call_effect. destruct r; cbn; try destruct (failed _); lia.
Qed.

(** ** Worlds that differ only in how updates end *)

Section TwoWorlds.

Variable env : Env.
Variables w1 w2 : World.
Hypothesis agree : forall i r, is_update r = false -> w1 i r = w2 i r.

Lemma update_airtable_record_agree (record_id : JSON) (fields : Fields)
  (s : State) :
  update_airtable_record w1 record_id fields s
  = update_airtable_record w2 record_id fields s.
Proof.
  unfold update_airtable_record. run_effects.
  destruct (w1 _ _), (w2 _ _); reflexivity.
Qed.

Lemma get_airtable_records_loop_agree (fuel : nat) (records : list JSON)
  (offset : JSON) (s : State) :
  get_airtable_records_loop w1 fuel records offset s
  = get_airtable_records_loop w2 fuel records offset s.
Proof.
  revert records offset s.
  induction fuel as [|fuel IH]; intros records offset s; [reflexivity|].
  cbn [get_airtable_records_loop].
  unfold get_airtable_records_body. run_effects.
  rewrite (agree _ (AirtableList _) eq_refl).
  destruct (w2 _ _); [reflexivity|].
  repeat (case_inner; try reflexivity). apply IH.
Qed.

Lemma get_uploads_playlist_id_agree (channel_id : JSON) (s : State) :
  get_uploads_playlist_id w1 channel_id s
  = get_uploads_playlist_id w2 channel_id s.
Proof.
  unfold get_uploads_playlist_id. run_effects.
  now rewrite (agree _ (Channels _) eq_refl).
Qed.

Lemma get_recent_video_ids_loop_agree (fuel : nat) (playlist_id : JSON)
  (video_ids : list JSON) (next_page : JSON) (s : State) :
  get_recent_video_ids_loop env w1 fuel playlist_id video_ids next_page s
  = get_recent_video_ids_loop env w2 fuel playlist_id video_ids next_page s.
Proof.
  revert video_ids next_page s.
  induction fuel as [|fuel IH]; intros video_ids next_page s; [reflexivity|].
  cbn [get_recent_video_ids_loop].
  unfold get_recent_video_ids_body. run_effects.
  rewrite (agree _ (PlaylistItems _ _) eq_refl).
  destruct (w2 _ _); [reflexivity|]. cbn [exn_eqb].
  repeat (case_inner; try reflexivity). apply IH.
Qed.

Lemma get_video_stats_batch_loop_agree (video_ids : list JSON)
  (starts : list nat) (stats_data : list JSON) (s : State) :
  get_video_stats_batch_loop w1 video_ids starts stats_data s
  = get_video_stats_batch_loop w2 video_ids starts stats_data s.
Proof.
  revert stats_data s.
  induction starts as [|i starts IH]; intros stats_data s; [reflexivity|].
  cbn [get_video_stats_batch_loop]. run_effects.
  destruct (join_operand _); [|reflexivity].
  rewrite (agree _ (Videos _) eq_refl).
  destruct (w2 _ _); [reflexivity|].
  repeat (case_inner; try reflexivity). apply IH.
Qed.

Lemma bind_agree {A B} (m1 m2 : M A) (k1 k2 : A -> M B) (s : State) :
  m1 s = m2 s -> (forall a s', k1 a s' = k2 a s') ->
  bind m1 k1 s = bind m2 k2 s.
Proof.
  intros Hm Hk. unfold bind. rewrite Hm. destruct (m2 s); auto.
Qed.

Lemma aggregate_and_update_agree (record : JSON) (video_ids : list JSON)
  (s : State) :
  aggregate_and_update env w1 record video_ids s
  = aggregate_and_update env w2 record video_ids s.
Proof.
  unfold aggregate_and_update.
  apply bind_agree; [apply get_video_stats_batch_loop_agree|].
  intros stats s1. apply bind_agree; [reflexivity|].
  intros [[vs ls] cs] s2.
  repeat (apply bind_agree; [reflexivity|]; intros ? ?).
  apply bind_agree; [apply update_airtable_record_agree | reflexivity].
Qed.

Lemma process_record_agree (fuel : nat) (record : JSON) (s : State) :
  process_record env w1 fuel record s = process_record env w2 fuel record s.
Proof.
  unfold process_record.
  apply bind_agree; [reflexivity|]. intros fields s1.
  apply bind_agree; [reflexivity|]. intros channel_id s2.
  destruct (negb (truthy channel_id)); [reflexivity|].
  apply bind_agree; [reflexivity|]. intros _ s3.
  apply bind_agree; [apply get_uploads_playlist_id_agree|].
  intros playlist_id s4.
  destruct (negb (truthy playlist_id)).
  - apply bind_agree; [reflexivity|]. intros record_id s5.
    apply bind_agree; [apply update_airtable_record_agree | reflexivity].
  - apply bind_agree; [apply get_recent_video_ids_loop_agree|].
    intros [|v vs] s5.
    + apply bind_agree; [reflexivity|]. intros record_id s6.
      apply bind_agree; [apply update_airtable_record_agree | reflexivity].
    + apply bind_agree; [apply aggregate_and_update_agree | reflexivity].
Qed.

Lemma main_loop_agree (fuel : nat) (records : list JSON) (updated_count : Z)
  (s : State) :
  main_loop env w1 fuel records updated_count s
  = main_loop env w2 fuel records updated_count s.
Proof.
  revert updated_count s.
  induction records as [|record rest IH]; intros c s; [reflexivity|].
  cbn [main_loop]. apply bind_agree; [reflexivity|]. intros errors s1.
  destruct (ERROR_LIMIT <=? errors); [reflexivity|].
  apply bind_agree; [apply process_record_agree|]. intros counted s2.
  apply IH.
Qed.

Lemma main_agree (fuel : nat) (s : State) :
  main env w1 fuel s = main env w2 fuel s.
Proof.
  unfold main. destruct (negb _); [reflexivity|].
  apply bind_agree; [apply get_airtable_records_loop_agree|].
  intros [|r rs] s1; [reflexivity|].
  apply bind_agree; [apply main_loop_agree | reflexivity].
Qed.

End TwoWorlds.

(** C5: over a whole run the error counter grows by exactly the number of
    failed platform calls (channel lookup, list page, statistics batch):
    a failed update or a failed fetch of the records is not counted, nor is
    a platform answer that holds nothing.  Each of the three platform
    components keeps the counter level with the failed calls; channel
    resolution adds one exactly when its request fails; the record source
    and the record sink never change the counter. *)
Theorem error_count_counts_transport_failures (env : Env) (world : World)
  (fuel : nat) :
  (forall s,
      counter_excess world (final_state (main env world fuel s))
      = counter_excess world s)
  /\ error_count (final_state (main env world fuel initial_state))
     = transport_failures world
         (final_state (main env world fuel initial_state))
  /\ (forall channel_id s,
         error_count (final_state (get_uploads_playlist_id world channel_id s))
         = error_count s
           + (if failed (world (List.length (calls s)) (Channels channel_id))
              then 1 else 0))
  /\ (forall playlist_id s,
         counter_excess world
           (final_state (get_recent_video_ids env world fuel playlist_id s))
         = counter_excess world s)
  /\ (forall video_ids s,
         counter_excess world
           (final_state (get_video_stats_batch world video_ids s))
         = counter_excess world s)
  /\ (forall record_id fields s,
         error_count
           (final_state (update_airtable_record world record_id fields s))
         = error_count s)
  /\ (forall s,
         error_count (final_state (get_airtable_records world fuel s))
         = error_count s).
Proof.
  assert (Hmain : forall s,
             counter_excess world (final_state (main env world fuel s))
             = counter_excess world s).
  { intros s.
    pose proof (main_effect env world (counter_excess world) 1 0
                  (counter_excess_incr world) (counter_excess_call world)
                  fuel s) as H.
    destruct (main env world fuel s) as [[n|] s' | e s' | s'];
      cbn [final_state];
      [lia | lia | destruct H as [k H]; lia | destruct H as [k H]; lia]. }
  split; [exact Hmain|]. split; [|split; [|split; [|split; [|split]]]].
  - specialize (Hmain initial_state). unfold counter_excess in Hmain.
    cbn in Hmain. lia.
  - intros channel_id s. unfold get_uploads_playlist_id. run_effects.
    destruct (world _ _) eqn:W; cbn [failed]; [reflexivity|].
    repeat (case_inner; try pure_exn; cbn [exn_eqb final_state]);
      cbn; lia.
  - intros playlist_id s.
    exact (get_recent_video_ids_loop_keeps env world (counter_excess world)
             1 0 (counter_excess_incr world) (counter_excess_call world)
             fuel playlist_id [] JNull s).
  - intros video_ids s.
    exact (get_video_stats_batch_loop_keeps world (counter_excess world)
             1 0 (counter_excess_incr world) (counter_excess_call world)
             video_ids _ [] s).
  - intros record_id fields s.
    destruct (update_airtable_record_adds world error_count 0 0
                (error_count_call world) record_id fields s) as [-> _].
    reflexivity.
  - intros s.
    exact (get_airtable_records_loop_keeps world error_count 0 0
             (error_count_call world) fuel [] JNull s).
Qed.

(** C7: the update call always returns, whatever the store answers, and
    leaves the error counter alone; a record is counted exactly when an
    update was sent for it, so the total reported at the end is the number
    of update calls made; and a run is the same, call for call, in two
    worlds that differ only in how updates end. *)
Theorem update_failure_keeps_the_count (env : Env) (world : World)
  (fuel : nat) :
  (forall record_id fields s,
      update_airtable_record world record_id fields s
      = Returns tt (log_call (AirtableUpdate record_id fields) s)
      /\ error_count (log_call (AirtableUpdate record_id fields) s)
         = error_count s)
  /\ (forall record s counted s',
         process_record env world fuel record s = Returns counted s' ->
         updates_issued s' = updates_issued s + (if counted then 1 else 0))
  /\ (forall s updated_count s',
         main env world fuel s = Returns (Some updated_count) s' ->
         updated_count = updates_issued s' - updates_issued s)
  /\ (forall world',
         (forall i r, is_update r = false -> world i r = world' i r) ->
         forall s, main env world fuel s = main env world' fuel s).
Proof.
  split; [|split; [|split]].
  - intros record_id fields s. split; [|reflexivity].
    unfold update_airtable_record. run_effects.
    destruct (world _ _); reflexivity.
  - intros record s counted s' H.
    pose proof (process_record_effect env world updates_issued 0 1
                  updates_incr (updates_call world) fuel record s) as P.
    rewrite H in P. exact P.
  - intros s n s' H.
    pose proof (main_effect env world updates_issued 0 1
                  updates_incr (updates_call world) fuel s) as P.
    rewrite H in P. lia.
  - intros world' Hagree s. now apply main_agree.
Qed.

Lemma update_failure_keeps_the_count_witness :
  main Standin.env Example.read_only_store 5 initial_state
  = main Standin.env Example.world 5 initial_state
  /\ 2 = updates_issued
           (final_state
              (main Standin.env Example.read_only_store 5 initial_state))
         - updates_issued initial_state.
Proof.
  pose proof (update_failure_keeps_the_count
                Standin.env Example.read_only_store 5) as (_ & _ & Hn & Hw).
  split.
  - apply Hw. intros i r Hr. destruct r; try reflexivity. discriminate Hr.
  - apply (Hn initial_state 2
             (final_state
                (main Standin.env Example.read_only_store 5 initial_state))).
    vm_compute. reflexivity.
Defined.

(** ** Containment of transport failures *)

Lemma quiet_rbind {A B} (r : result A) (k : A -> result B) :
  quiet r -> (forall a, quiet (k a)) -> quiet (rbind r k).
Proof.
  unfold quiet. intros Hr Hk. destruct r as [a|e]; cbn; [apply Hk|].
  intros H. apply Hr. inversion H. reflexivity.
Qed.

Lemma quiet_rcatch {A} (e0 : exn) (body handler : result A) :
  quiet body -> quiet handler -> quiet (rcatch e0 body handler).
Proof.
  unfold quiet, rcatch. intros Hb Hh.
  destruct body as [a|e]; [discriminate|].
  destruct (exn_eqb e e0); assumption.
Qed.

Lemma quiet_py_get (x : JSON) (k : string) (d : JSON) : quiet (py_get x k d).
Proof. intros H. apply py_get_raises in H. discriminate. Qed.

Lemma quiet_py_getitem (x : JSON) (k : string) : quiet (py_getitem x k).
Proof. intros H. apply py_getitem_raises in H. destruct H; discriminate. Qed.

Lemma quiet_py_iter (x : JSON) : quiet (py_iter x).
Proof. intros H. apply py_iter_raises in H. discriminate. Qed.

Lemma quiet_of_parsed {A} (p : parsed A) : quiet (of_parsed p).
Proof. destruct p as [a|[]]; discriminate. Qed.

Lemma quiet_join_operand (batch : list JSON) : quiet (join_operand batch).
Proof.
  induction batch as [|x batch IH]; [discriminate|].
  destruct x; try discriminate. cbn [join_operand].
  apply quiet_rbind; [exact IH | discriminate].
Qed.

Lemma quiet_true_divide (a b : Z) : quiet (true_divide a b).
Proof.
  unfold quiet, true_divide.
  destruct (b =? 0); [discriminate|]. destruct (a =? 0); [discriminate|].
  destruct (in_units _ _ _). destruct (_ && _); discriminate.
Qed.

Lemma quiet_average (l : list Z) : quiet (average l).
Proof.
  destruct l; [discriminate|]. unfold average.
  apply quiet_rbind; [apply quiet_true_divide | discriminate].
Qed.

Section Contained.

Variable env : Env.
Variable world : World.

Lemma quiet_py_int (x : JSON) : quiet (py_int env x).
Proof.
  destruct x; try discriminate. cbn.
  destruct (int_of_str env s); discriminate.
Qed.

Lemma quiet_is_longform (x : JSON) : quiet (is_longform env x).
Proof.
  unfold is_longform.
  apply quiet_rbind; [apply quiet_of_parsed|]. intros d.
  apply quiet_rbind; [apply quiet_true_divide | discriminate].
Qed.

Lemma quiet_scan_item (item : JSON) (acc : list JSON * bool) :
  quiet (scan_item env item acc).
Proof.
  destruct acc as [ids found]. unfold scan_item.
  apply quiet_rcatch; [|discriminate].
  apply quiet_rbind; [apply quiet_py_getitem|]. intros cd.
  apply quiet_rbind; [apply quiet_py_getitem|]. intros ts.
  apply quiet_rbind; [apply quiet_of_parsed|]. intros [us|us];
    cbn [datetime_ge_cutoff rbind]; [discriminate|].
  destruct (_ <=? _); [|discriminate].
  apply quiet_rbind; [apply quiet_py_getitem|]. intros cd'.
  apply quiet_rbind; [apply quiet_py_getitem|]. discriminate.
Qed.

Lemma quiet_scan_page (items : list JSON) (acc : list JSON * bool) :
  quiet (scan_page env items acc).
Proof.
  revert acc. induction items as [|item items IH]; intros acc;
    [discriminate|].
  cbn [scan_page]. apply quiet_rbind; [apply quiet_scan_item | exact IH].
Qed.

Lemma quiet_collect_item (item : JSON) (acc : list Z * list Z * list Z) :
  quiet (collect_item env item acc).
Proof.
  destruct acc as [[vs ls] cs]. unfold collect_item.
  apply quiet_rcatch; [|discriminate].
  apply quiet_rbind; [apply quiet_py_getitem|]. intros cd.
  apply quiet_rbind; [apply quiet_py_getitem|]. intros d.
  apply quiet_rbind; [apply quiet_is_longform|]. intros [|]; [|discriminate].
  repeat (apply quiet_rbind; [apply quiet_py_getitem|]; intros ?;
          apply quiet_rbind; [apply quiet_py_get|]; intros ?;
          apply quiet_rbind; [apply quiet_py_int|]; intros ?).
  discriminate.
Qed.

Lemma quiet_collect_longform (items : list JSON)
  (acc : list Z * list Z * list Z) :
  quiet (collect_longform env items acc).
Proof.
  revert acc. induction items as [|item items IH]; intros acc;
    [discriminate|].
  cbn [collect_longform].
  apply quiet_rbind; [apply quiet_collect_item | exact IH].
Qed.

Lemma contained_ret {A} (a : A) : contained (ret a).
Proof. intros s s'. discriminate. Qed.

Lemma contained_lift {A} (r : result A) : quiet r -> contained (lift r).
Proof.
  intros Hr s s'. unfold lift. destruct r as [a|e]; [discriminate|].
  intros H. inversion H; subst. now apply Hr.
Qed.

Lemma contained_bind {A B} (m : M A) (k : A -> M B) :
  contained m -> (forall a, contained (k a)) -> contained (bind m k).
Proof.
  intros Hm Hk s s'. unfold bind.
  destruct (m s) as [a s1 | e s1 | s1] eqn:E.
  - apply Hk.
  - intros H. inversion H; subst. exact (Hm s s' E).
  - discriminate.
Qed.

(** [try ... except RequestException] lets none through, whatever the
    body, when the handler raises none. *)
Lemma contained_catch {A} (body handler : M A) :
  contained handler -> contained (catch RequestException body handler).
Proof.
  intros Hh s s'. unfold catch.
  destruct (body s) as [a s1 | e s1 | s1]; [discriminate| |discriminate].
  destruct (exn_eqb e RequestException) eqn:E; [apply Hh|].
  intros H. inversion H; subst. discriminate E.
Qed.

Lemma contained_incr_then {A} (a : A) :
  contained (bind incr_error_count (fun _ => ret a)).
Proof. intros s s'. discriminate. Qed.

Lemma contained_get_airtable_records_loop (fuel : nat)
  (records : list JSON) (offset : JSON) :
  contained (get_airtable_records_loop world fuel records offset).
Proof.
  revert records offset.
  induction fuel as [|fuel IH]; intros records offset;
    [intros s s'; discriminate|].
  cbn [get_airtable_records_loop]. apply contained_bind.
  - apply contained_catch, contained_ret.
  - intros [[r o]|[r o]]; [apply contained_ret | apply IH].
Qed.

Lemma contained_get_uploads_playlist_id (channel_id : JSON) :
  contained (get_uploads_playlist_id world channel_id).
Proof. apply contained_catch, contained_incr_then. Qed.

Lemma contained_get_recent_video_ids_loop (fuel : nat) (playlist_id : JSON)
  (video_ids : list JSON) (next_page : JSON) :
  contained
    (get_recent_video_ids_loop env world fuel playlist_id video_ids
       next_page).
Proof.
  revert video_ids next_page.
  induction fuel as [|fuel IH]; intros video_ids next_page;
    [intros s s'; discriminate|].
  cbn [get_recent_video_ids_loop]. apply contained_bind.
  - unfold get_recent_video_ids_body. apply contained_bind.
    + apply contained_catch, contained_incr_then.
    + intros [data|]; [|apply contained_ret].
      apply contained_bind; [apply contained_lift, quiet_py_get|].
      intros page.
      apply contained_bind; [apply contained_lift, quiet_py_iter|].
      intros items.
      apply contained_bind; [apply contained_lift, quiet_scan_page|].
      intros [ids found].
      apply contained_bind; [apply contained_lift, quiet_py_get|].
      intros present. destruct (_ && _); [apply contained_ret|].
      apply contained_bind; [apply contained_lift, quiet_py_get|].
      intros next. destruct (negb _); apply contained_ret.
  - intros [[ids n]|[ids n]]; [apply contained_ret | apply IH].
Qed.

Lemma contained_get_video_stats_batch_loop (video_ids : list JSON)
  (starts : list nat) (stats_data : list JSON) :
  contained (get_video_stats_batch_loop world video_ids starts stats_data).
Proof.
  revert stats_data.
  induction starts as [|i starts IH]; intros stats_data;
    [apply contained_ret|].
  cbn [get_video_stats_batch_loop].
  apply contained_bind; [apply contained_lift, quiet_join_operand|].
  intros ids. apply contained_bind.
  - apply contained_catch, contained_incr_then.
  - intros [sd|sd]; [apply contained_ret | apply IH].
Qed.

Lemma contained_update_airtable_record (record_id : JSON) (fields : Fields) :
  contained (update_airtable_record world record_id fields).
Proof. apply contained_catch, contained_ret. Qed.

Lemma contained_process_record (fuel : nat) (record : JSON) :
  contained (process_record env world fuel record).
Proof.
  unfold process_record.
  apply contained_bind; [apply contained_lift, quiet_py_getitem|].
  intros fields.
  apply contained_bind; [apply contained_lift, quiet_py_get|].
  intros channel_id. destruct (negb _).
  { apply contained_bind; [apply contained_lift, quiet_py_getitem|].
    intros _. apply contained_ret. }
  apply contained_bind; [apply contained_lift, quiet_py_getitem|].
  intros _.
  apply contained_bind; [apply contained_get_uploads_playlist_id|].
  intros playlist_id. destruct (negb _).
  { apply contained_bind; [apply contained_lift, quiet_py_getitem|].
    intros rid.
    apply contained_bind; [apply contained_update_airtable_record|].
    intros _. apply contained_ret. }
  apply contained_bind; [apply contained_get_recent_video_ids_loop|].
  intros [|v vs].
  { apply contained_bind; [apply contained_lift, quiet_py_getitem|].
    intros rid.
    apply contained_bind; [apply contained_update_airtable_record|].
    intros _. apply contained_ret. }
  apply contained_bind; [|intros _; apply contained_ret].
  unfold aggregate_and_update.
  apply contained_bind; [apply contained_get_video_stats_batch_loop|].
  intros stats.
  apply contained_bind; [apply contained_lift, quiet_collect_longform|].
  intros [[views likes] comments].
  do 3 (apply contained_bind; [apply contained_lift, quiet_average|];
        intros ?).
  apply contained_bind; [apply contained_lift, quiet_py_getitem|].
  intros rid.
  apply contained_bind; [apply contained_update_airtable_record|].
  intros _. apply contained_ret.
Qed.

Lemma contained_main_loop (fuel : nat) (records : list JSON)
  (updated_count : Z) :
  contained (main_loop env world fuel records updated_count).
Proof.
  revert updated_count.
  induction records as [|record rest IH]; intros c; [apply contained_ret|].
  cbn [main_loop]. apply contained_bind; [intros s s'; discriminate|].
  intros errors. destruct (_ <=? _); [apply contained_ret|].
  apply contained_bind; [apply contained_process_record|].
  intros counted. apply IH.
Qed.

Lemma contained_main (fuel : nat) : contained (main env world fuel).
Proof.
  unfold main. destruct (negb _); [apply contained_ret|].
  apply contained_bind; [apply contained_get_airtable_records_loop|].
  intros [|r rs]; [apply contained_ret|].
  apply contained_bind; [apply contained_main_loop|].
  intros n. apply contained_ret.
Qed.

End Contained.

(** C6, as amended: a failed request never leaves the component that made
    it.  The record source returns the records it has, channel resolution
    returns [None], the recency filter returns the identifiers it has, the
    statistics batcher returns the items it has, the record sink returns;
    the three platform components add one to the error counter.  No
    component, and no run, ever raises [RequestException]. *)
Theorem transport_failures_are_contained (env : Env) (world : World) :
  (forall fuel records offset s,
      world (List.length (calls s)) (AirtableList (param_if_truthy offset))
      = Failed ->
      get_airtable_records_loop world (S fuel) records offset s
      = Returns records
          (log_call (AirtableList (param_if_truthy offset)) s))
  /\ (forall channel_id s,
         world (List.length (calls s)) (Channels channel_id) = Failed ->
         get_uploads_playlist_id world channel_id s
         = Returns JNull
             {| error_count := error_count s + 1;
                calls := calls s ++ [Channels channel_id] |})
  /\ (forall fuel playlist_id video_ids next_page s,
         world (List.length (calls s))
           (PlaylistItems playlist_id (param_if_truthy next_page)) = Failed ->
         get_recent_video_ids_loop env world (S fuel) playlist_id video_ids
           next_page s
         = Returns video_ids
             {| error_count := error_count s + 1;
                calls := calls s
                         ++ [PlaylistItems playlist_id
                               (param_if_truthy next_page)] |})
  /\ (forall video_ids i starts stats_data ids s,
         join_operand (slice video_ids i (i + 50)) = Ok ids ->
         world (List.length (calls s)) (Videos ids) = Failed ->
         get_video_stats_batch_loop world video_ids (i :: starts) stats_data s
         = Returns stats_data
             {| error_count := error_count s + 1;
                calls := calls s ++ [Videos ids] |})
  /\ (forall record_id fields s,
         update_airtable_record world record_id fields s
         = Returns tt (log_call (AirtableUpdate record_id fields) s))
  /\ (forall fuel,
         contained (get_airtable_records world fuel)
         /\ (forall channel_id,
                contained (get_uploads_playlist_id world channel_id))
         /\ (forall playlist_id,
                contained (get_recent_video_ids env world fuel playlist_id))
         /\ (forall video_ids,
                contained (get_video_stats_batch world video_ids))
         /\ (forall record_id fields,
                contained (update_airtable_record world record_id fields))
         /\ contained (main env world fuel)).
Proof.
  split; [|split; [|split; [|split; [|split]]]].
  - intros fuel records offset s W. cbn [get_airtable_records_loop].
    unfold get_airtable_records_body. run_effects. now rewrite W.
  - intros channel_id s W. unfold get_uploads_playlist_id. run_effects.
    now rewrite W.
  - intros fuel playlist_id video_ids next_page s W.
    cbn [get_recent_video_ids_loop].
    unfold get_recent_video_ids_body. run_effects. now rewrite W.
  - intros video_ids i starts stats_data ids s J W.
    cbn [get_video_stats_batch_loop]. run_effects. now rewrite J, W.
  - intros record_id fields s. unfold update_airtable_record. run_effects.
    destruct (world _ _); reflexivity.
  - intros fuel. repeat split.
    + apply contained_get_airtable_records_loop.
    + apply contained_get_uploads_playlist_id.
    + intros playlist_id. apply contained_get_recent_video_ids_loop.
    + intros video_ids. apply contained_get_video_stats_batch_loop.
    + apply contained_update_airtable_record.
    + apply contained_main.
Qed.

Lemma transport_failures_are_contained_witness :
  get_uploads_playlist_id Example.outage (JStr "UC01") initial_state
  = Returns JNull
      {| error_count := 1; calls := [Channels (JStr "UC01")] |}
  /\ get_video_stats_batch Example.no_statistics [JStr "v1"; JStr "v2"]
       initial_state
     = Returns [] {| error_count := 1; calls := [Videos ["v1"; "v2"]] |}.
Proof.
  pose proof (transport_failures_are_contained Standin.env Example.outage)
    as (_ & Hch & _).
  pose proof (transport_failures_are_contained
                Standin.env Example.no_statistics)
    as (_ & _ & _ & Hst & _).
  split.
  - apply (Hch (JStr "UC01") initial_state). reflexivity.
  - apply (Hst [JStr "v1"; JStr "v2"] 0%nat [] [] ["v1"; "v2"]
             initial_state); reflexivity.
Defined.

(** C6, as stated, fails on the code: what a component does not expect in
    a well-delivered answer raises through it and ends the run.  A channel
    entry without [contentDetails] raises [KeyError] out of channel
    resolution and out of [main]; a duration that is not ISO 8601 raises
    [ValueError] out of [is_longform], which the aggregator's
    [except KeyError] lets through. *)
Lemma malformed_answers_propagate :
  get_uploads_playlist_id Example.bare_channel (JStr "UC_alpha")
    initial_state
  = Raises KeyError
      {| error_count := 0; calls := [Channels (JStr "UC_alpha")] |}
  /\ main Standin.env Example.bare_channel 5 initial_state
     = Raises KeyError
         {| error_count := 0;
            calls := [AirtableList None; Channels (JStr "UC_alpha")] |}
  /\ is_longform Standin.env (JStr "3:00") = Raise ValueError
  /\ collect_longform Standin.env
       [Example.video "3:00" (Example.counts "100" "10" "2")] ([], [], [])
     = Raise ValueError.
Proof. repeat split; reflexivity. Qed.

(** * Further properties of the script *)

(** ** Batches of fifty *)

Lemma firstn_add_skipn {A} (a k : nat) (l : list A) :
  firstn (a + k) l = firstn a l ++ firstn k (skipn a l).
Proof.
  revert l. induction a as [|a IH]; intros l; [reflexivity|].
  destruct l as [|x l]; cbn.
  - now rewrite firstn_nil.
  - now rewrite IH.
Qed.

Lemma batch_at_firstn {A} (l : list A) (i : nat) :
  batch_at l i = firstn 50 (skipn i l).
Proof. unfold batch_at, slice. f_equal. lia. Qed.

(** The first [m] batches, laid end to end, are the first [50 * m]
    elements. *)
Lemma batches_concat {A} (l : list A) (m : nat) :
  List.concat (map (batch_at l) (map (fun k => (k * 50)%nat) (seq 0 m)))
  = firstn (m * 50) l.
Proof.
  induction m as [|m IH]; [reflexivity|].
  rewrite seq_S, !map_app, concat_app, IH. cbn [Nat.add map List.concat].
  rewrite app_nil_r, batch_at_firstn.
  replace (S m * 50)%nat with (m * 50 + 50)%nat by lia.
  now rewrite firstn_add_skipn.
Qed.

Lemma range_step_50 (n : nat) :
  exists m, range_step n 50 = map (fun k => (k * 50)%nat) (seq 0 m)
            /\ (n <= m * 50)%nat /\ (m * 50 < n + 50)%nat.
Proof.
  exists ((n + 50 - 1) / 50)%nat. split; [reflexivity|].
  pose proof (Nat.div_mod_eq (n + 50 - 1) 50) as D.
  pose proof (Nat.mod_upper_bound (n + 50 - 1) 50 ltac:(lia)) as U.
  lia.
Qed.

Lemma batches_partition {A} (l : list A) :
  List.concat (map (batch_at l) (range_step (List.length l) 50)) = l
  /\ Forall (fun i => (1 <= List.length (batch_at l i) <= 50)%nat)
       (range_step (List.length l) 50).
Proof.
  destruct (range_step_50 (List.length l)) as (m & -> & Hlo & Hhi). split.
  - rewrite batches_concat. apply firstn_all2. exact Hlo.
  - apply Forall_forall. intros i Hi. apply in_map_iff in Hi.
    destruct Hi as (k & <- & Hk). apply in_seq in Hk.
    rewrite batch_at_firstn, length_firstn, length_skipn. nia.
Qed.

Lemma join_operand_length (l : list JSON) (strs : list string) :
  join_operand l = Ok strs -> List.length strs = List.length l.
Proof.
  revert strs. induction l as [|x l IH]; intros strs H.
  - inversion H. reflexivity.
  - destruct x; try discriminate H. cbn [join_operand] in H.
    destruct (join_operand l) as [ss|]; [|discriminate H].
    inversion H. cbn. now rewrite (IH ss).
Qed.

Lemma join_operand_firstn (l : list JSON) (strs : list string) (k : nat) :
  join_operand l = Ok strs -> join_operand (firstn k l) = Ok (firstn k strs).
Proof.
  revert l strs. induction k as [|k IH]; intros l strs H; [reflexivity|].
  destruct l as [|x l]; [inversion H; reflexivity|].
  destruct x; try discriminate H. cbn [join_operand] in H.
  destruct (join_operand l) as [ss|] eqn:E; [|discriminate H].
  inversion H. cbn [firstn join_operand]. now rewrite (IH l ss E).
Qed.

Lemma join_operand_skipn (l : list JSON) (strs : list string) (k : nat) :
  join_operand l = Ok strs -> join_operand (skipn k l) = Ok (skipn k strs).
Proof.
  revert l strs. induction k as [|k IH]; intros l strs H; [exact H|].
  destruct l as [|x l]; [inversion H; reflexivity|].
  destruct x; try discriminate H. cbn [join_operand] in H.
  destruct (join_operand l) as [ss|] eqn:E; [|discriminate H].
  inversion H. cbn [skipn]. now apply IH.
Qed.

Lemma join_operand_batch (l : list JSON) (strs : list string) (i : nat) :
  join_operand l = Ok strs ->
  join_operand (slice l i (i + 50)) = Ok (batch_at strs i).
Proof.
  intros H. unfold batch_at, slice.
  now apply join_operand_firstn, join_operand_skipn.
Qed.

(** The requests of the loop are those of the first batches, in order; all
    of them when it returns with the error counter as it was. *)
Lemma get_video_stats_batch_loop_requests (world : World)
  (video_ids : list JSON) (strs : list string) :
  join_operand video_ids = Ok strs ->
  forall starts stats_data s,
  exists k,
    calls (final_state
             (get_video_stats_batch_loop world video_ids starts stats_data s))
    = calls s ++ map (fun i => Videos (batch_at strs i)) (firstn k starts)
    /\ forall stats s',
         get_video_stats_batch_loop world video_ids starts stats_data s
         = Returns stats s' ->
         error_count s' = error_count s ->
         firstn k starts = starts.
Proof.
  intros J starts.
  induction starts as [|i starts IH]; intros stats_data s.
  - exists 0%nat. cbn. rewrite app_nil_r. auto.
  - cbn [get_video_stats_batch_loop].
    unfold bind at 1, lift at 1. rewrite (join_operand_batch _ _ i J).
    run_effects.
    destruct (world _ _) eqn:W.
    + exists 1%nat. cbn. split; [reflexivity|].
      intros stats s' H E. inversion H; subst. cbn in E. lia.
    + destruct (py_get data "items" (JArr [])) as [page|e] eqn:G.
      2: { exists 1%nat. apply py_get_raises in G. subst e. cbn.
           split; [reflexivity | discriminate]. }
      destruct (py_iter page) as [more|e] eqn:I.
      2: { exists 1%nat. apply py_iter_raises in I. subst e. cbn.
           split; [reflexivity | discriminate]. }
      destruct (IH (stats_data ++ more)
                  (log_call (Videos (batch_at strs i)) s)) as (k & Hc & Hall).
      exists (S k). cbn [firstn map]. split.
      * rewrite Hc. cbn [log_call calls]. now rewrite <- app_assoc.
      * intros stats s' H E. f_equal. exact (Hall stats s' H E).
Qed.

Lemma firstn_seq (k a m : nat) :
  firstn k (seq a m) = seq a (Nat.min k m).
Proof.
  revert a m. induction k as [|k IH]; intros a m; [reflexivity|].
  destruct m as [|m]; [reflexivity|]. cbn. now rewrite IH.
Qed.

Lemma requested_batches (strs : list string) (starts : list nat) :
  requested (map (fun i => Videos (batch_at strs i)) starts)
  = List.concat (map (batch_at strs) starts).
Proof.
  unfold requested. induction starts as [|i starts IH]; [reflexivity|].
  cbn. now rewrite IH.
Qed.

(** X1: the statistics of [video_ids] (all strings) are asked for in
    requests of one to fifty identifiers; the identifiers requested, in
    the order of the requests, are a prefix of [video_ids], and all of
    them when the call returns without having counted an error. *)
Theorem stats_requests_partition_the_ids (world : World)
  (video_ids : list JSON) (strs : list string) (s : State) :
  join_operand video_ids = Ok strs ->
  exists new,
    calls (final_state (get_video_stats_batch world video_ids s))
    = calls s ++ new
    /\ Forall is_batch_request new
    /\ (exists rest, strs = requested new ++ rest)
    /\ (forall stats s',
           get_video_stats_batch world video_ids s = Returns stats s' ->
           error_count s' = error_count s ->
           requested new = strs).
Proof.
  intros J. unfold get_video_stats_batch.
  destruct (get_video_stats_batch_loop_requests world video_ids strs J
              (range_step (List.length video_ids) 50) [] s) as (k & Hc & Hall).
  rewrite <- (join_operand_length _ _ J) in *.
  destruct (batches_partition strs) as [Hcat Hlen].
  destruct (range_step_50 (List.length strs)) as (m & Hm & Hlo & Hhi).
  exists (map (fun i => Videos (batch_at strs i))
            (firstn k (range_step (List.length strs) 50))).
  split; [exact Hc|]. split; [|split].
  - apply Forall_forall. intros r Hr. apply in_map_iff in Hr.
    destruct Hr as (i & <- & Hi). exists (batch_at strs i).
    split; [reflexivity|].
    rewrite Forall_forall in Hlen. apply Hlen.
    apply (In_nth_error) in Hi. destruct Hi as [n Hn].
    apply nth_error_In with n.
    rewrite nth_error_firstn in Hn.
    destruct (n <? k)%nat; [exact Hn | discriminate].
  - rewrite requested_batches, Hm, firstn_map, firstn_seq, batches_concat.
    exists (skipn (Nat.min k m * 50) strs). now rewrite firstn_skipn.
  - intros stats s' H E. rewrite (Hall stats s' H E).
    now rewrite requested_batches.
Qed.

Lemma stats_requests_partition_the_ids_witness :
  exists new,
    calls (final_state
             (get_video_stats_batch Example.world (repeat (JStr "v") 51)
                initial_state))
    = calls initial_state ++ new
    /\ Forall is_batch_request new
    /\ (exists rest, repeat "v" 51 = requested new ++ rest)
    /\ (forall stats s',
           get_video_stats_batch Example.world (repeat (JStr "v") 51)
             initial_state = Returns stats s' ->
           error_count s' = error_count initial_state ->
           requested new = repeat "v" 51).
Proof.
  apply (stats_requests_partition_the_ids Example.world
           (repeat (JStr "v") 51) (repeat "v" 51) initial_state).
  reflexivity.
Defined.

(** ** The record source *)

Lemma get_airtable_records_loop_serves (world : World) (i : nat)
  (offset : JSON) (served : list JSON) (n : nat) :
  store_serves world i offset served n ->
  forall fuel records s,
    i = List.length (calls s) -> (n <= fuel)%nat ->
    exists new,
      get_airtable_records_loop world fuel records offset s
      = Returns (records ++ served)
          {| error_count := error_count s; calls := calls s ++ new |}
      /\ List.length new = n
      /\ Forall is_list_request new.
Proof.
  induction 1 as [i offset W
                 | i offset data page next more W G I O T
                 | i offset data page next more rest n W G I O T _ IH];
    intros fuel records s -> Hfuel;
    (destruct fuel as [|fuel]; [lia|]);
    cbn [get_airtable_records_loop];
    unfold get_airtable_records_body; run_effects; rewrite W.
  - exists [AirtableList (param_if_truthy offset)].
    rewrite app_nil_r. repeat split.
    repeat constructor. now exists (param_if_truthy offset).
  - rewrite G, I, O, T. cbn [negb].
    exists [AirtableList (param_if_truthy offset)]. repeat split.
    repeat constructor. now exists (param_if_truthy offset).
  - rewrite G, I, O, T. cbn [negb].
    destruct (IH fuel (records ++ more)
                (log_call (AirtableList (param_if_truthy offset)) s))
      as (new & Hrun & Hlen & Hall).
    { cbn. rewrite length_app. cbn. lia. }
    { lia. }
    exists (AirtableList (param_if_truthy offset) :: new).
    rewrite Hrun. cbn [log_call calls error_count].
    rewrite <- !app_assoc. repeat split.
    + cbn. now rewrite Hlen.
    + constructor; [now exists (param_if_truthy offset) | exact Hall].
Qed.

(** X2: when the store serves its records over [n] calls, each page
    naming the offset of the next, the record source returns them all in
    order, with any fuel of at least [n]; it makes these [n] list calls and
    no other, and leaves the error counter alone, also when the last call
    fails. *)
Theorem record_source_follows_the_offsets (world : World) (fuel : nat)
  (served : list JSON) (n : nat) (s : State) :
  store_serves world (List.length (calls s)) JNull served n ->
  (n <= fuel)%nat ->
  exists new,
    get_airtable_records world fuel s
    = Returns served
        {| error_count := error_count s; calls := calls s ++ new |}
    /\ List.length new = n
    /\ Forall is_list_request new.
Proof.
  intros Hs Hfuel. unfold get_airtable_records.
  exact (get_airtable_records_loop_serves world _ JNull served n Hs
           fuel [] s eq_refl Hfuel).
Qed.

Lemma record_source_follows_the_offsets_witness :
  exists new,
    get_airtable_records Example.two_pages 2 initial_state
    = Returns ([Example.tracked "recA" "UC_alpha"]
               ++ [Example.tracked "recC" "UC_gone"])
        {| error_count := error_count initial_state;
           calls := calls initial_state ++ new |}
    /\ List.length new = 2%nat
    /\ Forall is_list_request new.
Proof.
  apply (record_source_follows_the_offsets Example.two_pages 2
           ([Example.tracked "recA" "UC_alpha"]
            ++ [Example.tracked "recC" "UC_gone"]) 2 initial_state).
  - apply (serves_more Example.two_pages 0 JNull
             (JObj [("records", JArr [Example.tracked "recA" "UC_alpha"]);
                    ("offset", JStr "o2")])
             (JArr [Example.tracked "recA" "UC_alpha"]) (JStr "o2")
             [Example.tracked "recA" "UC_alpha"]
             [Example.tracked "recC" "UC_gone"] 1);
      try reflexivity.
    apply (serves_last Example.two_pages 1 (JStr "o2")
             (JObj [("records", JArr [Example.tracked "recC" "UC_gone"])])
             (JArr [Example.tracked "recC" "UC_gone"]) JNull
             [Example.tracked "recC" "UC_gone"]);
      reflexivity.
  - lia.
Defined.

(** X5: [main] stops before the loop, reporting no total, when a
    credential is missing or empty (and then makes no call at all), and
    when the store hands out no record, be it empty or unreachable (and
    then makes the list calls and no other). *)
Theorem main_stops_without_records (env : Env) (world : World) (fuel : nat)
  (s : State) :
  (configured (AIRTABLE_API_KEY env) = false
   \/ configured (AIRTABLE_BASE_ID env) = false
   \/ configured (YOUTUBE_API_KEY env) = false ->
   main env world fuel s = Returns None s)
  /\ (forall n,
         configured (AIRTABLE_API_KEY env) = true ->
         configured (AIRTABLE_BASE_ID env) = true ->
         configured (YOUTUBE_API_KEY env) = true ->
         store_serves world (List.length (calls s)) JNull [] n ->
         (n <= fuel)%nat ->
         exists new,
           main env world fuel s
           = Returns None
               {| error_count := error_count s; calls := calls s ++ new |}
           /\ List.length new = n
           /\ Forall is_list_request new).
Proof.
  split.
  - intros H. unfold main.
    destruct H as [-> | [-> | ->]]; rewrite ?andb_false_r; reflexivity.
  - intros n K1 K2 K3 Hs Hfuel. unfold main. rewrite K1, K2, K3.
    cbn [andb negb]. unfold get_airtable_records.
    destruct (get_airtable_records_loop_serves world _ JNull [] n Hs
                fuel [] s eq_refl Hfuel) as (new & Hrun & Hlen & Hall).
    exists new. unfold bind. rewrite Hrun. repeat split; assumption.
Qed.

Lemma main_stops_without_records_witness :
  exists new,
    main Standin.env (fun _ _ => Failed) 1 initial_state
    = Returns None
        {| error_count := error_count initial_state;
           calls := calls initial_state ++ new |}
    /\ List.length new = 1%nat
    /\ Forall is_list_request new.
Proof.
  apply (proj2 (main_stops_without_records Standin.env (fun _ _ => Failed)
                  1 initial_state) 1%nat);
    [reflexivity | reflexivity | reflexivity | | lia].
  apply serves_failed. reflexivity.
Defined.

(** ** What the recency filter returns *)

Section Recency.

Variable env : Env.
Variable world : World.

Lemma scan_item_collects (item video_id : JSON) (video_ids : list JSON)
  (found : bool) :
  published_recently env item video_id ->
  scan_item env item (video_ids, found) = Ok (video_ids ++ [video_id], true).
Proof.
  intros (cd & ts & us & Hcd & Hts & Hp & Hge & Hid).
  unfold scan_item. cbv beta iota. rewrite Hcd. cbn [rbind].
  rewrite Hts. cbn [rbind].
  rewrite Hp. cbn [of_parsed rbind datetime_ge_cutoff].
  apply Z.leb_le in Hge. rewrite Hge. cbn [rbind]. rewrite Hid.
  reflexivity.
Qed.

Lemma scan_item_sound (item : JSON) (video_ids video_ids' : list JSON)
  (found found' : bool) :
  scan_item env item (video_ids, found) = Ok (video_ids', found') ->
  (video_ids' = video_ids /\ found' = found)
  \/ (exists video_id,
         video_ids' = video_ids ++ [video_id] /\ found' = true
         /\ published_recently env item video_id).
Proof.
  unfold scan_item. cbv beta iota. intros H.
  destruct (py_getitem item "contentDetails") as [cd|e] eqn:Hcd;
    cbn [rbind] in H.
  2: { left. unfold rcatch in H. destruct (exn_eqb e KeyError);
       inversion H; auto. }
  destruct (py_getitem cd "videoPublishedAt") as [ts|e] eqn:Hts;
    cbn [rbind] in H.
  2: { left. unfold rcatch in H. destruct (exn_eqb e KeyError);
       inversion H; auto. }
  destruct (parser_parse env ts) as [[us|us]|e] eqn:Hp;
    cbn [of_parsed rbind datetime_ge_cutoff] in H.
  - discriminate H.
  - destruct (CUTOFF_DATE env <=? us) eqn:Hge.
    + cbn [rbind] in H.
      destruct (py_getitem cd "videoId") as [v|e] eqn:Hid; cbn [rbind] in H.
      * right. inversion H. exists v. repeat split.
        exists cd, ts, us. repeat split; try assumption. now apply Z.leb_le.
      * left. unfold rcatch in H. destruct (exn_eqb e KeyError);
          inversion H; auto.
    + left. inversion H. auto.
  - destruct e; discriminate H.
Qed.

Lemma scan_page_sound (items : list JSON) (video_ids video_ids' : list JSON)
  (found found' : bool) :
  scan_page env items (video_ids, found) = Ok (video_ids', found') ->
  exists new,
    video_ids' = video_ids ++ new
    /\ forall v, In v new ->
                 exists item, In item items /\ published_recently env item v.
Proof.
  revert video_ids found.
  induction items as [|item items IH]; intros ids found H.
  - inversion H. exists []. rewrite app_nil_r. split; [reflexivity|].
    intros v [].
  - cbn [scan_page] in H.
    destruct (scan_item env item (ids, found)) as [[ids1 found1]|] eqn:Hi;
      [|discriminate H].
    cbn [rbind] in H. destruct (IH _ _ H) as (new & -> & Hnew).
    destruct (scan_item_sound _ _ _ _ _ Hi) as [[-> _] | (v0 & -> & _ & Hv0)].
    + exists new. split; [reflexivity|].
      intros v Hv. destruct (Hnew v Hv) as (it & Hin & Hp).
      exists it. split; [now right | exact Hp].
    + exists (v0 :: new). rewrite <- app_assoc. split; [reflexivity|].
      intros v [<- | Hv].
      * exists item. split; [now left | exact Hv0].
      * destruct (Hnew v Hv) as (it & Hin & Hp).
        exists it. split; [now right | exact Hp].
Qed.

Lemma listed_during_wider (playlist_id : JSON) (lo lo' hi hi' : nat)
  (item : JSON) :
  (lo' <= lo)%nat -> (hi <= hi')%nat ->
  listed_during world playlist_id lo hi item ->
  listed_during world playlist_id lo' hi' item.
Proof.
  intros Hlo Hhi (i & token & data & page & items & Hi & H).
  exists i, token, data, page, items. split; [lia | exact H].
Qed.

Lemma get_recent_video_ids_loop_sound (fuel : nat) (playlist_id : JSON)
  (video_ids : list JSON) (next_page : JSON) (s : State) :
  let o := get_recent_video_ids_loop env world fuel playlist_id video_ids
             next_page s in
  (List.length (calls s) <= List.length (calls (final_state o)))%nat
  /\ forall video_ids' s',
       o = Returns video_ids' s' ->
       exists new,
         video_ids' = video_ids ++ new
         /\ forall v, In v new ->
              exists item,
                listed_during world playlist_id (List.length (calls s))
                  (List.length (calls s')) item
                /\ published_recently env item v.
Proof.
  revert video_ids next_page s.
  induction fuel as [|fuel IH]; intros video_ids next_page s o; subst o.
  { split; [cbn; lia | discriminate]. }
  cbn [get_recent_video_ids_loop].
  unfold get_recent_video_ids_body. run_effects.
  set (r := PlaylistItems playlist_id (param_if_truthy next_page)).
  assert (Hnone : forall st : State, exists new : list JSON,
             video_ids = video_ids ++ new
             /\ forall v, In v new ->
                  exists item,
                    listed_during world playlist_id (List.length (calls s))
                      (List.length (calls st)) item
                    /\ published_recently env item v).
  { intros st. exists []. rewrite app_nil_r. split; [reflexivity|].
    intros v []. }
  destruct (world (List.length (calls s)) r) eqn:W.
  { cbn. rewrite length_app. split; [lia|].
    intros ids' s' H. inversion H; subst. apply Hnone. }
  cbn [exn_eqb].
  assert (Hlog : (List.length (calls s)
                  < List.length (calls (log_call r s)))%nat).
  { cbn. rewrite length_app. cbn. lia. }
  destruct (py_get data "items" (JArr [])) as [page|] eqn:G;
    [|split; [cbn [final_state]; lia | discriminate]].
  destruct (py_iter page) as [items|] eqn:I;
    [|split; [cbn [final_state]; lia | discriminate]].
  destruct (scan_page env items (video_ids, false)) as [[ids1 found1]|]
    eqn:Hscan; [|split; [cbn [final_state]; lia | discriminate]].
  destruct (scan_page_sound _ _ _ _ _ Hscan) as (new1 & -> & Hnew1).
  assert (Hhere : forall hi v, (List.length (calls (log_call r s)) <= hi)%nat ->
             In v new1 ->
             exists item,
               listed_during world playlist_id (List.length (calls s)) hi item
               /\ published_recently env item v).
  { intros hi v Hhi Hv. destruct (Hnew1 v Hv) as (item & Hin & Hp).
    exists item. split; [|exact Hp].
    exists (List.length (calls s)), (param_if_truthy next_page), data, page,
      items.
    repeat split; try assumption; lia. }
  destruct (py_get data "items" JNull) as [present|];
    [|split; [cbn [final_state]; lia | discriminate]].
  destruct (negb found1 && truthy present).
  { split; [cbn [final_state]; lia|].
    intros ids' s' H. inversion H; subst. exists new1.
    split; [reflexivity|]. intros v Hv. now apply Hhere. }
  destruct (py_get data "nextPageToken" JNull) as [next|];
    [|split; [cbn [final_state]; lia | discriminate]].
  destruct (negb (truthy next)).
  { split; [cbn [final_state]; lia|].
    intros ids' s' H. inversion H; subst. exists new1.
    split; [reflexivity|]. intros v Hv. now apply Hhere. }
  destruct (IH (video_ids ++ new1) next (log_call r s)) as [Hlen Hret].
  split; [lia|].
  intros ids' s' H. destruct (Hret ids' s' H) as (new2 & -> & Hnew2).
  rewrite H in Hlen. cbn [final_state] in Hlen.
  exists (new1 ++ new2). rewrite app_assoc. split; [reflexivity|].
  intros v Hv. apply in_app_or in Hv. destruct Hv as [Hv | Hv].
  - now apply Hhere.
  - destruct (Hnew2 v Hv) as (item & Hl & Hp). exists item.
    split; [|exact Hp].
    apply (listed_during_wider playlist_id _ _ _ _ item) with (3 := Hl); lia.
Qed.

End Recency.

(** X3: an item with an identifier and a publication time at or after the
    cutoff (the cutoff instant included) is collected, and marks its page
    as one with recent videos; an item left out changes nothing; and every
    identifier the recency filter returns comes from an item that the
    platform listed, on a page fetched during this call, and that was
    published at or after the cutoff. *)
Theorem recency_filter_returns_recent_ids (env : Env) (world : World) :
  (forall item video_id video_ids found,
      published_recently env item video_id ->
      scan_item env item (video_ids, found)
      = Ok (video_ids ++ [video_id], true))
  /\ (forall item video_ids video_ids' found found',
         scan_item env item (video_ids, found) = Ok (video_ids', found') ->
         (video_ids' = video_ids /\ found' = found)
         \/ (exists video_id,
                video_ids' = video_ids ++ [video_id] /\ found' = true
                /\ published_recently env item video_id))
  /\ (forall fuel playlist_id s video_ids s',
         get_recent_video_ids env world fuel playlist_id s
         = Returns video_ids s' ->
         forall v, In v video_ids ->
           exists item,
             listed_during world playlist_id (List.length (calls s))
               (List.length (calls s')) item
             /\ published_recently env item v).
Proof.
  split; [|split].
  - intros. now apply scan_item_collects.
  - intros item ids ids' found found' H.
    exact (scan_item_sound env _ _ _ _ _ H).
  - intros fuel playlist_id s ids s' H v Hv. unfold get_recent_video_ids in H.
    destruct (get_recent_video_ids_loop_sound env world fuel playlist_id []
                JNull s) as [_ Hret].
    destruct (Hret ids s' H) as (new & -> & Hnew). now apply Hnew.
Qed.

Lemma recency_filter_returns_recent_ids_witness :
  scan_item Standin.env
    (Example.playlist_item "a5" "2026-08-06T12:00:00Z") ([], false)
  = Ok ([JStr "a5"], true)
  /\ exists item,
       listed_during Example.world (JStr "UU_pages") 0 2 item
       /\ published_recently Standin.env item (JStr "a5").
Proof.
  pose proof (recency_filter_returns_recent_ids Standin.env Example.world)
    as (Hin & _ & Hout).
  split.
  - apply (Hin (Example.playlist_item "a5" "2026-08-06T12:00:00Z")
             (JStr "a5") [] false).
    exists (JObj [("videoId", JStr "a5");
                  ("videoPublishedAt", JStr "2026-08-06T12:00:00Z")]),
      (JStr "2026-08-06T12:00:00Z"), 1786017600000000.
    repeat split; reflexivity.
  - apply (Hout 2%nat (JStr "UU_pages") initial_state
             (map JStr ["a1"; "a2"; "a3"; "a4"; "a5"])
             {| error_count := 0;
                calls := [PlaylistItems (JStr "UU_pages") None;
                          PlaylistItems (JStr "UU_pages")
                            (Some (JStr "p2"))] |}).
    + reflexivity.
    + cbn. tauto.
Defined.

(** ** Channel resolution *)

(** X8: channel resolution returns a usable playlist identifier exactly
    when its one request was answered and the first channel of the answer
    names it; it then leaves the error counter alone. *)
Theorem resolver_reads_the_first_channel (world : World)
  (channel_id playlist_id : JSON) (s s' : State) :
  (get_uploads_playlist_id world channel_id s = Returns playlist_id s'
   /\ truthy playlist_id = true)
  <->
  (exists data,
      world (List.length (calls s)) (Channels channel_id) = Body data
      /\ first_channel_uploads data playlist_id
      /\ truthy playlist_id = true
      /\ s' = log_call (Channels channel_id) s).
Proof.
  unfold get_uploads_playlist_id. run_effects. split.
  - intros [H T].
    destruct (world _ _) as [|data] eqn:W.
    { inversion H; subst. discriminate T. }
    exists data. split; [reflexivity|].
    destruct (py_get data "items" (JArr [])) as [items|e] eqn:G.
    2: { apply py_get_raises in G. subst e. discriminate H. }
    destruct (truthy items) eqn:Ti; cbn [negb] in H.
    2: { inversion H; subst. discriminate T. }
    destruct (py_first items) as [item|e] eqn:F.
    2: { destruct (py_first_raises _ _ F) as [-> | [-> | ->]];
         discriminate H. }
    destruct (py_getitem item "contentDetails") as [cd|e] eqn:C.
    2: { destruct (py_getitem_raises _ _ _ C) as [-> | ->]; discriminate H. }
    destruct (py_getitem cd "relatedPlaylists") as [rp|e] eqn:R.
    2: { destruct (py_getitem_raises _ _ _ R) as [-> | ->]; discriminate H. }
    destruct (py_getitem rp "uploads") as [u|e] eqn:U.
    2: { destruct (py_getitem_raises _ _ _ U) as [-> | ->]; discriminate H. }
    inversion H; subst. repeat split; try assumption.
    exists items, item, cd, rp. repeat split; assumption.
  - intros (data & W & (items & item & cd & rp & G & Ti & F & C & R & U)
            & T & ->).
    rewrite W, G, Ti. cbn [negb]. rewrite F, C, R, U. split; [reflexivity|].
    exact T.
Qed.

(** ** The paths of a record *)

(** X6: a record without channel identifier is passed over without any
    call and is not counted (its [id] is still read, for the message).  A
    record whose channel cannot be resolved, because the request failed or
    because the platform knows no such channel, is written with zeros and
    counted; in the first case the failure is counted too. *)
Theorem unresolved_channel_writes_zeros (env : Env) (world : World)
  (fuel : nat) (record fields channel_id record_id : JSON) (s : State) :
  py_getitem record "fields" = Ok fields ->
  py_get fields "YouTube Channel ID" JNull = Ok channel_id ->
  py_getitem record "id" = Ok record_id ->
  (truthy channel_id = false ->
   process_record env world fuel record s = Returns false s)
  /\ (truthy channel_id = true ->
      world (List.length (calls s)) (Channels channel_id) = Failed ->
      process_record env world fuel record s
      = Returns true
          {| error_count := error_count s + 1;
             calls := calls s ++ [Channels channel_id;
                                  AirtableUpdate record_id zero_fields] |})
  /\ (forall data items,
         truthy channel_id = true ->
         world (List.length (calls s)) (Channels channel_id) = Body data ->
         py_get data "items" (JArr []) = Ok items ->
         truthy items = false ->
         process_record env world fuel record s
         = Returns true
             {| error_count := error_count s;
                calls := calls s ++ [Channels channel_id;
                                     AirtableUpdate record_id zero_fields] |}).
Proof.
  intros Hf Hc Hid. unfold process_record.
  rewrite (bind_lift_ok _ _ _ _ Hf), (bind_lift_ok _ _ _ _ Hc).
  split; [|split].
  - intros ->. cbn [negb]. now rewrite (bind_lift_ok _ _ _ _ Hid).
  - intros -> W. cbn [negb]. rewrite (bind_lift_ok _ _ _ _ Hid).
    assert (R : get_uploads_playlist_id world channel_id s
                = Returns JNull
                    {| error_count := error_count s + 1;
                       calls := calls s ++ [Channels channel_id] |}).
    { unfold get_uploads_playlist_id. run_effects. now rewrite W. }
    rewrite (bind_returns _ _ _ _ _ R). cbn [truthy negb].
    rewrite (bind_lift_ok _ _ _ _ Hid). unfold bind.
    rewrite update_airtable_record_returns. unfold log_call, ret.
    cbn [calls error_count]. now rewrite <- app_assoc.
  - intros data items -> W G Ti. cbn [negb].
    rewrite (bind_lift_ok _ _ _ _ Hid).
    assert (R : get_uploads_playlist_id world channel_id s
                = Returns JNull (log_call (Channels channel_id) s)).
    { unfold get_uploads_playlist_id. run_effects. now rewrite W, G, Ti. }
    rewrite (bind_returns _ _ _ _ _ R). cbn [truthy negb].
    rewrite (bind_lift_ok _ _ _ _ Hid). unfold bind.
    rewrite update_airtable_record_returns. unfold log_call, ret.
    cbn [calls error_count]. now rewrite <- app_assoc.
Qed.

Lemma unresolved_channel_writes_zeros_witness :
  process_record Standin.env Example.outage 1
    (Example.tracked "rec01" "UC01") initial_state
  = Returns true
      {| error_count := 1;
         calls := [Channels (JStr "UC01");
                   AirtableUpdate (JStr "rec01") zero_fields] |}.
Proof.
  apply (proj1 (proj2 (unresolved_channel_writes_zeros Standin.env
                         Example.outage 1 (Example.tracked "rec01" "UC01")
                         (JObj [("YouTube Channel ID", JStr "UC01")])
                         (JStr "UC01") (JStr "rec01") initial_state
                         eq_refl eq_refl eq_refl)));
    reflexivity.
Defined.

(** ** The three lists *)

Lemma collect_item_grows (env : Env) (item : JSON)
  (vs ls cs vs' ls' cs' : list Z) :
  collect_item env item (vs, ls, cs) = Ok (vs', ls', cs') ->
  (List.length vs <= List.length vs' <= S (List.length vs))%nat.
Proof.
  unfold collect_item, rcatch, rbind. intros H.
  repeat case_inner_in H;
    inversion H; subst; rewrite ?length_app; cbn; lia.
Qed.

(** X7: the lists of views, likes and comments are filled together: after
    any number of items they have one length, which is at most the number
    of items seen. *)
Theorem longform_lists_stay_aligned (env : Env)
  (video_stats_list : list JSON) (views likes comments : list Z) :
  collect_longform env video_stats_list ([], [], [])
  = Ok (views, likes, comments) ->
  List.length views = List.length likes
  /\ List.length likes = List.length comments
  /\ (List.length views <= List.length video_stats_list)%nat.
Proof.
  intros H.
  destruct (collect_longform_lengths env _ _ _ _ _ _ _ H
              (conj eq_refl eq_refl)) as [E1 E2].
  split; [exact E1|]. split; [exact E2|].
  assert (G : forall items vs ls cs vs' ls' cs',
             collect_longform env items (vs, ls, cs) = Ok (vs', ls', cs') ->
             (List.length vs'
              <= List.length vs + List.length items)%nat).
  { induction items as [|item items IH]; intros vs ls cs vs' ls' cs' Hc.
    - inversion Hc. cbn. lia.
    - cbn [collect_longform] in Hc.
      destruct (collect_item env item (vs, ls, cs)) as [[[v1 l1] c1]|] eqn:Hi;
        [|discriminate Hc].
      cbn [rbind] in Hc. specialize (IH _ _ _ _ _ _ Hc).
      pose proof (collect_item_grows env _ _ _ _ _ _ _ Hi). cbn. lia. }
  exact (G _ _ _ _ _ _ _ H).
Qed.

Lemma longform_lists_stay_aligned_witness :
  List.length [100] = List.length [10]
  /\ List.length [10] = List.length [2]
  /\ (List.length [100] <= 2)%nat.
Proof.
  apply (longform_lists_stay_aligned Standin.env
           [Example.video "PT5M" (Example.counts "100" "10" "2");
            Example.video "PT45S" (Example.counts "90000" "800" "70")]
           [100] [10] [2]).
  reflexivity.
Defined.

(** ** How far the error counter can go *)

Ltac bounds := unfold between in *; cbn; lia.

Section Budget.

Variable env : Env.
Variable world : World.

(** Channel resolution counts an error only when it comes back with
    [None]. *)
Lemma get_uploads_playlist_id_errors (channel_id : JSON) (s : State) :
  error_count (final_state (get_uploads_playlist_id world channel_id s))
  = error_count s
  \/ (get_uploads_playlist_id world channel_id s
      = Returns JNull
          {| error_count := error_count s + 1;
             calls := calls s ++ [Channels channel_id] |}).
Proof.
  unfold get_uploads_playlist_id. run_effects.
  destruct (world _ _) eqn:W; [right; reflexivity|]. left.
  repeat (case_inner; try pure_exn; cbn [exn_eqb final_state]); reflexivity.
Qed.

Lemma get_recent_video_ids_loop_errors (fuel : nat) (playlist_id : JSON)
  (video_ids : list JSON) (next_page : JSON) (s : State) :
  between (error_count s)
    (error_count
       (final_state
          (get_recent_video_ids_loop env world fuel playlist_id video_ids
             next_page s)))
    (error_count s + 1).
Proof.
  revert video_ids next_page s.
  induction fuel as [|fuel IH]; intros video_ids next_page s; [bounds|].
  cbn [get_recent_video_ids_loop].
  unfold get_recent_video_ids_body. run_effects.
  destruct (world _ _) eqn:W; [bounds|]. cbn [exn_eqb].
  repeat case_inner; cbn [final_state]; try bounds.
  match goal with
  | |- context [get_recent_video_ids_loop _ _ _ _ ?i ?n ?st] =>
      specialize (IH i n st)
  end.
  exact IH.
Qed.

Lemma get_video_stats_batch_loop_errors (video_ids : list JSON)
  (starts : list nat) (stats_data : list JSON) (s : State) :
  between (error_count s)
    (error_count
       (final_state
          (get_video_stats_batch_loop world video_ids starts stats_data s)))
    (error_count s + 1).
Proof.
  revert stats_data s.
  induction starts as [|i starts IH]; intros stats_data s; [bounds|].
  cbn [get_video_stats_batch_loop]. run_effects.
  destruct (join_operand _); [|bounds].
  destruct (world _ _) eqn:W; [bounds|].
  repeat (case_inner; try pure_exn; cbn [exn_eqb final_state]);
    try bounds.
  match goal with
  | |- context [get_video_stats_batch_loop _ _ _ ?d ?st] =>
      specialize (IH d st)
  end.
  exact IH.
Qed.

Lemma aggregate_and_update_errors (record : JSON) (video_ids : list JSON)
  (s : State) :
  between (error_count s)
    (error_count
       (final_state (aggregate_and_update env world record video_ids s)))
    (error_count s + 1).
Proof.
  unfold aggregate_and_update, get_video_stats_batch.
  pose proof (get_video_stats_batch_loop_errors video_ids
                (range_step (List.length video_ids) 50) [] s) as K.
  unfold bind at 1.
  destruct (get_video_stats_batch_loop _ _ _ _ _) as [stats s1 | e s1 | s1];
    cbn [final_state] in K |- *; [|exact K|exact K].
  unfold bind, lift, ret.
  destruct (collect_longform env stats _) as [[[vs ls] cs]|]; [|exact K].
  destruct (average vs); [|exact K].
  destruct (average ls); [|exact K].
  destruct (average cs); [|exact K].
  destruct (py_getitem record "id"); [|exact K].
  rewrite update_airtable_record_returns. exact K.
Qed.

(** One record costs at most two errors: one for the list of uploads and
    one for the statistics, or one for the channel. *)
Lemma process_record_errors (fuel : nat) (record : JSON) (s : State) :
  between (error_count s)
    (error_count (final_state (process_record env world fuel record s)))
    (error_count s + 2).
Proof.
  unfold process_record.
  unfold bind at 1, lift at 1.
  destruct (py_getitem record "fields") as [fields|]; [|bounds].
  unfold bind at 1, lift at 1.
  destruct (py_get fields _ _) as [channel_id|]; [|bounds].
  destruct (truthy channel_id); cbn [negb].
  2: { unfold bind, lift, ret. destruct (py_getitem record "id"); bounds. }
  unfold bind at 1, lift at 1.
  destruct (py_getitem record "id") as [record_id|] eqn:Hid; [|bounds].
  unfold bind at 1.
  destruct (get_uploads_playlist_id_errors channel_id s) as [K1 | K1].
  2: { rewrite K1. cbn [truthy negb]. unfold bind, lift, ret.
       rewrite update_airtable_record_returns. bounds. }
  destruct (get_uploads_playlist_id world channel_id s)
    as [playlist_id s1 | e s1 | s1]; cbn [final_state] in K1 |- *;
    [|unfold between in *; lia|unfold between in *; lia].
  destruct (truthy playlist_id); cbn [negb].
  2: { unfold bind, lift, ret. rewrite update_airtable_record_returns.
       bounds. }
  unfold bind at 1, get_recent_video_ids.
  pose proof (get_recent_video_ids_loop_errors fuel playlist_id [] JNull s1)
    as K2.
  destruct (get_recent_video_ids_loop _ _ _ _ _ _ _)
    as [video_ids s2 | e s2 | s2]; cbn [final_state] in K2 |- *;
    [|unfold between in *; lia|unfold between in *; lia].
  destruct video_ids as [|v vs].
  - unfold bind, lift, ret. rewrite update_airtable_record_returns.
    bounds.
  - unfold bind, ret.
    pose proof (aggregate_and_update_errors record (v :: vs) s2) as K3.
    destruct (aggregate_and_update _ _ _ _ _); cbn [final_state] in K3 |- *;
      unfold between in *; lia.
Qed.

Lemma main_loop_errors (fuel : nat) (records : list JSON)
  (updated_count : Z) (s : State) :
  between (error_count s)
    (error_count
       (final_state (main_loop env world fuel records updated_count s)))
    (Z.max (error_count s) (ERROR_LIMIT + 1)).
Proof.
  revert updated_count s.
  induction records as [|record rest IH]; intros c s; [bounds|].
  cbn [main_loop]. unfold bind at 1, get_error_count.
  destruct (ERROR_LIMIT <=? error_count s) eqn:E; [bounds|].
  apply Z.leb_gt in E. unfold bind.
  pose proof (process_record_errors fuel record s) as P.
  destruct (process_record env world fuel record s)
    as [counted s1 | e s1 | s1]; cbn [final_state] in P |- *;
    unfold between, ERROR_LIMIT in *; [|lia|lia].
  specialize (IH (if counted then c + 1 else c) s1).
  unfold between, ERROR_LIMIT in IH. lia.
Qed.

End Budget.

(** X4: the error counter never goes down, one record adds at most two to
    it, and, a record being started only below [ERROR_LIMIT], it ends a
    run at [ERROR_LIMIT + 1] at most; it can end there. *)
Theorem error_count_stays_within_eleven (env : Env) (world : World)
  (fuel : nat) :
  (forall record s,
      error_count s
      <= error_count (final_state (process_record env world fuel record s))
      /\ error_count (final_state (process_record env world fuel record s))
         <= error_count s + 2)
  /\ (forall records updated_count s,
         error_count s
         <= error_count
              (final_state (main_loop env world fuel records updated_count s))
         /\ error_count
              (final_state (main_loop env world fuel records updated_count s))
            <= Z.max (error_count s) (ERROR_LIMIT + 1))
  /\ (0 <= error_count (final_state (main env world fuel initial_state))
      /\ error_count (final_state (main env world fuel initial_state))
         <= ERROR_LIMIT + 1)
  /\ error_count
       (final_state (main Standin.env Example.last_straw 3 initial_state))
     = ERROR_LIMIT + 1.
Proof.
  split; [|split; [|split]].
  - intros record s. exact (process_record_errors env world fuel record s).
  - intros records c s. exact (main_loop_errors env world fuel records c s).
  - unfold main. destruct (negb _); [cbn; unfold ERROR_LIMIT; lia|].
    unfold bind at 1 3, get_airtable_records.
    pose proof (get_airtable_records_loop_keeps world error_count 0 0
                  (error_count_call world) fuel [] JNull initial_state) as K.
    destruct (get_airtable_records_loop world fuel [] JNull initial_state)
      as [records s1 | e s1 | s1]; cbn [final_state] in K |- *;
      try (rewrite K; cbn; unfold ERROR_LIMIT; lia).
    destruct records as [|r rs];
      [cbn [final_state ret]; rewrite K; cbn; unfold ERROR_LIMIT; lia|].
    unfold bind, ret.
    pose proof (main_loop_errors env world fuel (r :: rs) 0 s1) as L.
    unfold between in L. rewrite K in L. cbn [initial_state error_count] in L.
    destruct (main_loop env world fuel (r :: rs) 0 s1);
      cbn [final_state] in L |- *; unfold ERROR_LIMIT in *; lia.
  - vm_compute. reflexivity.
Qed.
